(** * Order management panel: derived totals, validation and persistence

    A shallow embedding of the order editor (the [EditOrder] page), the
    order list's status badge (the [Orders] page) and the dashboard
    statistics (the [Dashboard] page).

    - JavaScript numbers are IEEE-754 binary64 values, taken from the
      Standard Library's executable specification [SpecFloat]
      (precision 53, maximal exponent 1024, round to nearest even).
    - The hosted backend is a set of tables together with a fault plan:
      every request is recorded, and either takes effect or reports an
      error and leaves the tables as they were.
    - Handlers are written in a small state-and-exception monad, so that
      [throw], [catch] and [finally] read as in the source. *)

From Stdlib Require Import ZArith List Lia Bool Permutation.
From Stdlib Require Import Floats.SpecFloat.
From stdpp Require Import base strings gmap pretty.
Import ListNotations.
Open Scope Z_scope.

(** ** JavaScript values *)

Module JS.

Definition prec : Z := 53.
Definition emax : Z := 1024.

(** The [number] type. *)
Definition number : Type := spec_float.

Definition NaN : number := S754_nan.
Definition zero : number := S754_zero false.
Definition neg_zero : number := S754_zero true.

(** A [number] that really is a binary64 value (canonical mantissa,
    exponent in range). *)
Definition is_double (x : number) : Prop := valid_binary prec emax x = true.

(** [x + y] and [x * y] on numbers. *)
Definition add : number -> number -> number := SFadd prec emax.
Definition mul : number -> number -> number := SFmul prec emax.

(** Relational comparison: [x < y] is false when either side is NaN, and
    [x >= y] is true exactly when the comparison is defined and is not
    "less than". *)
Definition lt (x y : number) : bool := SFltb x y.
Definition ge (x y : number) : bool :=
  match SFcompare x y with
  | Some Lt | None => false
  | Some _ => true
  end.

(** Integer literals, and decimal literals [n/d] (the nearest double to
    the quotient, as the literal [0.1] is the nearest double to 1/10). *)
Definition of_int (z : Z) : number := binary_normalize prec emax z 0 false.
Definition dec (n d : Z) : number := SFdiv prec emax (of_int n) (of_int d).

(** The values a numeric field of a fetched row or of the form state can
    hold. *)
Inductive value : Type :=
| JUndefined
| JNull
| JNum (n : number).

(** [Number(v)]. *)
Definition Number (v : value) : number :=
  match v with
  | JUndefined => NaN
  | JNull => zero
  | JNum n => n
  end.

(** Truthiness of a number: zero, negative zero and NaN are falsy. *)
Definition truthy (n : number) : bool :=
  match n with
  | S754_zero _ | S754_nan => false
  | _ => true
  end.

(** [v || 0]. *)
Definition or_zero (v : value) : number :=
  match v with
  | JNum n => if truthy n then n else zero
  | JUndefined | JNull => zero
  end.

(** [s || ''] for a string that may be null. *)
Definition or_empty (s : option string) : string :=
  match s with
  | Some s => s
  | None => ""
  end.

(** A nullable numeric column read as a JavaScript value. *)
Definition of_nullable (o : option number) : value :=
  match o with
  | Some n => JNum n
  | None => JNull
  end.

(** Property lookup [o[k]] on an object literal with string-valued own
    properties.  Own properties come first; a key that is not an own
    property is looked up on [Object.prototype], whose properties
    (methods, and the [__proto__] accessor) are all truthy. *)
Inductive prop : Type :=
| PStr (s : string)
| PInherited (key : string).

Definition object_prototype : list string :=
  [ "constructor"; "__defineGetter__"; "__defineSetter__"; "hasOwnProperty";
    "__lookupGetter__"; "__lookupSetter__"; "isPrototypeOf";
    "propertyIsEnumerable"; "toString"; "valueOf"; "__proto__";
    "toLocaleString" ]%string.

Definition get (o : gmap string string) (k : string) : option prop :=
  match o !! k with
  | Some v => Some (PStr v)
  | None =>
      if bool_decide (k ∈ object_prototype) then Some (PInherited k) else None
  end.

(** [x || d] where [x] is the result of a property lookup. *)
Definition or_prop (x : option prop) (d : prop) : prop :=
  match x with
  | Some (PStr "") | None => d
  | Some p => p
  end.

End JS.

Export JS.

(** ** The hosted backend

    Rows follow the generated table types: a nullable column is an
    [option]; the columns no modelled screen reads or writes
    ([created_at], [updated_at], [order_number], [customer_id],
    [product_id], [images]) are left out. *)

Module Backend.

Record order_row : Type := {
  o_id : string;
  o_customer_name : string;
  o_customer_phone : string;
  o_status : option string;
  o_total_pieces : option number;
  o_total_price : number;
  o_fabric_price : option number;
  o_tailoring_price : option number;
  o_extra_costs : option number;
  o_tax_amount : option number;
  o_notes : option string;
}.

Record item_row : Type := {
  i_id : string;
  i_order_id : option string;
  i_product_name : string;
  i_model : option string;
  i_size : option string;
  i_quantity : option number;
  i_meters : option number;
  i_unit_price : number;
  i_total_price : number;
}.

Record tables : Type := {
  orders : list order_row;
  order_items : list item_row;
  customers : list string;
  (** the backend's identifier generator *)
  id_seq : nat;
}.

(** The object passed to [update] on [orders]; a key whose value is
    [undefined] is not sent, so that column keeps its value. *)
Record order_patch : Type := {
  u_customer_name : string;
  u_customer_phone : string;
  u_status : string;
  u_total_pieces : number;
  u_total_price : number;
  u_fabric_price : number;
  u_tailoring_price : number;
  u_extra_costs : number;
  u_tax_amount : number;
  u_notes : option string;
}.

(** One element of the array passed to [insert] on [order_items]. *)
Record item_payload : Type := {
  n_order_id : string;
  n_product_name : string;
  n_model : option string;
  n_size : option string;
  n_quantity : number;
  n_meters : option number;
  n_unit_price : number;
  n_total_price : number;
}.

(** The requests the screens issue. *)
Inductive call : Type :=
| SelectOrder (id : string)
| SelectItems (id : string)
| SelectOrderTotals
| SelectCustomerIds
| UpdateOrder (id : string) (patch : order_patch)
| DeleteItems (id : string)
| InsertItems (rows : list item_payload).

(** [.eq('id', id).single()]: exactly one matching row, else an error. *)
Definition select_order (id : string) (t : tables) : option order_row :=
  match List.filter (fun r => bool_decide (o_id r = id)) (orders t) with
  | [r] => Some r
  | _ => None
  end.

Definition owned_by (id : string) (r : item_row) : bool :=
  bool_decide (i_order_id r = Some id).

(** [.eq('order_id', id)] on [order_items]. *)
Definition select_items (id : string) (t : tables) : list item_row :=
  List.filter (owned_by id) (order_items t).

Definition patch_order (p : order_patch) (r : order_row) : order_row :=
  {| o_id := o_id r;
     o_customer_name := u_customer_name p;
     o_customer_phone := u_customer_phone p;
     o_status := Some (u_status p);
     o_total_pieces := Some (u_total_pieces p);
     o_total_price := u_total_price p;
     o_fabric_price := Some (u_fabric_price p);
     o_tailoring_price := Some (u_tailoring_price p);
     o_extra_costs := Some (u_extra_costs p);
     o_tax_amount := Some (u_tax_amount p);
     o_notes := match u_notes p with Some s => Some s | None => o_notes r end |}.

Definition update_order (id : string) (p : order_patch) (t : tables) : tables :=
  {| orders := map (fun r => if bool_decide (o_id r = id) then patch_order p r else r)
                   (orders t);
     order_items := order_items t;
     customers := customers t;
     id_seq := id_seq t |}.

Definition delete_items (id : string) (t : tables) : tables :=
  {| orders := orders t;
     order_items := List.filter (fun r => negb (owned_by id r)) (order_items t);
     customers := customers t;
     id_seq := id_seq t |}.

Definition new_id (n : nat) : string := "item-" +:+ pretty n.

Definition stored (n : nat) (p : item_payload) : item_row :=
  {| i_id := new_id n;
     i_order_id := Some (n_order_id p);
     i_product_name := n_product_name p;
     i_model := n_model p;
     i_size := n_size p;
     i_quantity := Some (n_quantity p);
     i_meters := n_meters p;
     i_unit_price := n_unit_price p;
     i_total_price := n_total_price p |}.

Fixpoint store_from (n : nat) (ps : list item_payload) : list item_row :=
  match ps with
  | [] => []
  | p :: ps => stored n p :: store_from (S n) ps
  end.

Definition insert_items (ps : list item_payload) (t : tables) : tables :=
  {| orders := orders t;
     order_items := order_items t ++ store_from (id_seq t) ps;
     customers := customers t;
     id_seq := (id_seq t + length ps)%nat |}.

(** The effect of a request that succeeds. *)
Definition effect (c : call) (t : tables) : tables :=
  match c with
  | UpdateOrder id p => update_order id p t
  | DeleteItems id => delete_items id t
  | InsertItems ps => insert_items ps t
  | _ => t
  end.

(** A row of [select('total_price, status')] on [orders]. *)
Record totals_row : Type := {
  total_price : number;
  status : option string;
}.

(** What a request answers in its [data] field. *)
Inductive data : Type :=
| NoData
| OrderData (r : order_row)
| ItemsData (rs : list item_row)
| OrderTotals (rs : list totals_row)
| CustomerIds (ids : list string).

Definition answer (c : call) (t : tables) : option data :=
  match c with
  | SelectOrder id => option_map OrderData (select_order id t)
  | SelectItems id => Some (ItemsData (select_items id t))
  | SelectOrderTotals =>
      Some (OrderTotals
              (map (fun r => {| total_price := o_total_price r; status := o_status r |})
                   (orders t)))
  | SelectCustomerIds => Some (CustomerIds (customers t))
  | _ => Some NoData
  end.

End Backend.

Export Backend.

(** ** Effects: state, exceptions and the recorded outside world *)

Module Effects.

Inductive toast_variant : Type := Plain | Destructive.

Record toast : Type := {
  t_variant : toast_variant;
  t_title : string;
  t_description : string;
}.

(** The error object a failed request carries. *)
Inductive error : Type :=
| GatewayError (c : call)
| TypeError.

(** The [{ data, error }] object a request resolves to. *)
Record response : Type := {
  r_data : option data;
  r_error : option error;
}.

Record world : Type := {
  w_tables : tables;
  (** the fault plan: which requests the gateway fails *)
  w_fails : call -> bool;
  (** requests issued so far, oldest first *)
  w_calls : list call;
  w_toasts : list toast;
  w_route : option string;
  w_console : list error;
}.

Inductive outcome (A : Type) : Type :=
| Return (a : A)
| Throw (e : error).
Arguments Return {A} a.
Arguments Throw {A} e.

Definition M (S A : Type) : Type := S -> outcome A * S.

Definition ret {S A} (a : A) : M S A := fun s => (Return a, s).

Definition bind {S A B} (m : M S A) (k : A -> M S B) : M S B :=
  fun s =>
    match m s with
    | (Return a, s') => k a s'
    | (Throw e, s') => (Throw e, s')
    end.

Definition throw {S A} (e : error) : M S A := fun s => (Throw e, s).

Definition modify {S} (f : S -> S) : M S unit := fun s => (Return tt, f s).

Definition gets {S A} (f : S -> A) : M S A := fun s => (Return (f s), s).

(** [try { m } catch (e) { h e }]. *)
Definition catch {S A} (m : M S A) (h : error -> M S A) : M S A :=
  fun s =>
    match m s with
    | (Return a, s') => (Return a, s')
    | (Throw e, s') => h e s'
    end.

(** [try { m } finally { f }]. *)
Definition finally {S A} (m : M S A) (f : M S unit) : M S A :=
  fun s =>
    match m s with
    | (r, s') =>
        match f s' with
        | (Return _, s'') => (r, s'')
        | (Throw e, s'') => (Throw e, s'')
        end
    end.

(** One awaited request: it is recorded; when the fault plan fails it, or
    when it has no answer (no single row), the tables are untouched and
    the response carries an error; otherwise its effect is applied. *)
Definition request_on (c : call) (w : world) : response * world :=
  let w' t := {| w_tables := t; w_fails := w_fails w;
                 w_calls := w_calls w ++ [c]; w_toasts := w_toasts w;
                 w_route := w_route w; w_console := w_console w |} in
  let failed := {| r_data := None; r_error := Some (GatewayError c) |} in
  if w_fails w c then (failed, w' (w_tables w))
  else
    match answer c (w_tables w) with
    | Some d => ({| r_data := Some d; r_error := None |}, w' (effect c (w_tables w)))
    | None => (failed, w' (w_tables w))
    end.

Definition push_toast (t : toast) (w : world) : world :=
  {| w_tables := w_tables w; w_fails := w_fails w; w_calls := w_calls w;
     w_toasts := w_toasts w ++ [t]; w_route := w_route w;
     w_console := w_console w |}.

Definition go (path : string) (w : world) : world :=
  {| w_tables := w_tables w; w_fails := w_fails w; w_calls := w_calls w;
     w_toasts := w_toasts w; w_route := Some path; w_console := w_console w |}.

Definition log_error (e : error) (w : world) : world :=
  {| w_tables := w_tables w; w_fails := w_fails w; w_calls := w_calls w;
     w_toasts := w_toasts w; w_route := w_route w;
     w_console := w_console w ++ [e] |}.

End Effects.

Export Effects.

Declare Scope action_scope.
Delimit Scope action_scope with action.
Notation "x <- m ;; k" := (bind m (fun x => k))
  (at level 100, m at next level, right associativity) : action_scope.
Notation "m ;;; k" := (bind m (fun _ => k))
  (at level 100, right associativity) : action_scope.

(** ** Schema validation

    The fragment of the validation library the order schema uses.  Every
    field of an object is checked and all issues are collected; an issue
    carries the path of the field and the message given in the schema
    ([None] stands for the library's own wording). *)

Module Zod.

Inductive seg : Type := Key (k : string) | Index (i : nat).

Record issue : Type := {
  path : list seg;
  message : option string;
}.

Inductive parsed (A : Type) : Type :=
| Valid (a : A)
| Invalid (issues : list issue).
Arguments Valid {A} a.
Arguments Invalid {A} issues.

Definition fail {A} (msg : option string) : parsed A :=
  Invalid [ {| path := []; message := msg |} ].

Definition pmap {A B} (f : A -> B) (r : parsed A) : parsed B :=
  match r with
  | Valid a => Valid (f a)
  | Invalid i => Invalid i
  end.

(** Checks chained on one value stop at the first failing stage. *)
Definition andThen {A B} (r : parsed A) (k : A -> parsed B) : parsed B :=
  match r with
  | Valid a => k a
  | Invalid i => Invalid i
  end.

(** Fields of an object (and elements of an array) are all visited. *)
Definition both {A B} (ra : parsed A) (rb : parsed B) : parsed (A * B) :=
  match ra, rb with
  | Valid a, Valid b => Valid (a, b)
  | Valid _, Invalid j => Invalid j
  | Invalid i, Valid _ => Invalid i
  | Invalid i, Invalid j => Invalid (i ++ j)
  end.

Definition under (s : seg) {A} (r : parsed A) : parsed A :=
  match r with
  | Valid a => Valid a
  | Invalid i =>
      Invalid (map (fun x => {| path := s :: path x; message := message x |}) i)
  end.

Definition field {A} (k : string) (r : parsed A) : parsed A := under (Key k) r.

(** [z.string().min(1, msg)]. *)
Definition string_min1 (msg : string) (s : string) : parsed string :=
  if bool_decide (s = "") then fail (Some msg) else Valid s.

(** [z.string().optional()]. *)
Definition string_optional (s : option string) : parsed (option string) := Valid s.

(** [z.number()]: a number other than NaN. *)
Definition number_ (v : value) : parsed number :=
  match v with
  | JNum S754_nan => fail None
  | JNum n => Valid n
  | JUndefined | JNull => fail None
  end.

(** [.min(m, msg)]: the issue is raised when [n < m]. *)
Definition min (m : number) (msg : option string) (n : number) : parsed number :=
  if lt n m then fail msg else Valid n.

(** [.default(d)]: [undefined] is replaced by [d] before the inner
    schema runs. *)
Definition default {A} (d : number) (p : value -> parsed A) (v : value) : parsed A :=
  match v with
  | JUndefined => p (JNum d)
  | _ => p v
  end.

(** [.optional()]: [undefined] is accepted as it is. *)
Definition optional {A} (p : value -> parsed A) (v : value) : parsed (option A) :=
  match v with
  | JUndefined => Valid None
  | _ => pmap Some (p v)
  end.

(** [z.array(p)]. *)
Fixpoint array_from {A B} (p : A -> parsed B) (i : nat) (l : list A) : parsed (list B) :=
  match l with
  | [] => Valid []
  | x :: l =>
      pmap (fun '(y, ys) => y :: ys)
           (both (under (Index i) (p x)) (array_from p (S i) l))
  end.

Definition array {A B} (p : A -> parsed B) (l : list A) : parsed (list B) :=
  array_from p 0 l.

End Zod.

Export Zod.

(** ** The order editor *)

Module EditOrder.

Inductive order_status : Type := pending | completed | cancelled.

Definition status_key (s : order_status) : string :=
  match s with
  | pending => "pending"
  | completed => "completed"
  | cancelled => "cancelled"
  end.

(** [z.enum(['pending', 'completed', 'cancelled'])]. *)
Definition status_enum (s : option string) : parsed order_status :=
  if bool_decide (s = Some "pending") then Valid pending
  else if bool_decide (s = Some "completed") then Valid completed
  else if bool_decide (s = Some "cancelled") then Valid cancelled
  else fail None.

(** *** Form state: the values the inputs hold, before validation *)

Record item_values : Type := {
  v_id : option string;
  v_product_name : string;
  v_model : option string;
  v_size : option string;
  v_quantity : value;
  v_meters : value;
  v_unit_price : value;
}.

Record form_values : Type := {
  f_customer_name : string;
  f_customer_phone : string;
  f_status : option string;
  f_fabric_price : value;
  f_tailoring_price : value;
  f_extra_costs : value;
  f_tax_amount : value;
  f_notes : option string;
  f_order_items : list item_values;
}.

(** *** [OrderFormData]: what the schema hands to the submit handler *)

Record item_data : Type := {
  item_id : option string;
  product_name : string;
  model : option string;
  size : option string;
  quantity : number;
  meters : option number;
  unit_price : number;
}.

Record OrderFormData : Type := {
  customer_name : string;
  customer_phone : string;
  status_ : order_status;
  fabric_price : number;
  tailoring_price : number;
  extra_costs : number;
  tax_amount : number;
  notes : option string;
  order_items_ : list item_data;
}.

Definition customer_name_required : string := "اسم العميل مطلوب".
Definition customer_phone_required : string := "رقم الهاتف مطلوب".
Definition product_name_required : string := "اسم المنتج مطلوب".
Definition quantity_required : string := "الكمية مطلوبة".
Definition price_required : string := "السعر مطلوب".

Definition itemSchema (v : item_values) : parsed item_data :=
  pmap (fun '(i, (p, (m, (s, (q, (mt, u)))))) =>
          {| item_id := i; product_name := p; model := m; size := s;
             quantity := q; meters := mt; unit_price := u |})
    (both (field "id" (string_optional (v_id v)))
    (both (field "product_name" (string_min1 product_name_required (v_product_name v)))
    (both (field "model" (string_optional (v_model v)))
    (both (field "size" (string_optional (v_size v)))
    (both (field "quantity"
             (andThen (number_ (v_quantity v)) (min (of_int 1) (Some quantity_required))))
    (both (field "meters" (optional number_ (v_meters v)))
          (field "unit_price"
             (andThen (number_ (v_unit_price v)) (min (of_int 0) (Some price_required)))))))))).

Definition surcharge (v : value) : parsed number :=
  default (of_int 0) (fun v => andThen (number_ v) (min (of_int 0) None)) v.

Definition orderSchema (f : form_values) : parsed OrderFormData :=
  pmap (fun '(n, (ph, (st, (fp, (tp, (ec, (tx, (nt, its)))))))) =>
          {| customer_name := n; customer_phone := ph; status_ := st;
             fabric_price := fp; tailoring_price := tp; extra_costs := ec;
             tax_amount := tx; notes := nt; order_items_ := its |})
    (both (field "customer_name" (string_min1 customer_name_required (f_customer_name f)))
    (both (field "customer_phone" (string_min1 customer_phone_required (f_customer_phone f)))
    (both (field "status" (status_enum (f_status f)))
    (both (field "fabric_price" (surcharge (f_fabric_price f)))
    (both (field "tailoring_price" (surcharge (f_tailoring_price f)))
    (both (field "extra_costs" (surcharge (f_extra_costs f)))
    (both (field "tax_amount" (surcharge (f_tax_amount f)))
    (both (field "notes" (string_optional (f_notes f)))
          (field "order_items" (array itemSchema (f_order_items f))))))))))).

Definition defaultValues : form_values :=
  {| f_customer_name := ""; f_customer_phone := ""; f_status := Some "pending";
     f_fabric_price := JNum (of_int 0); f_tailoring_price := JNum (of_int 0);
     f_extra_costs := JNum (of_int 0); f_tax_amount := JNum (of_int 0);
     f_notes := Some ""; f_order_items := [] |}.

(** *** Component state *)

Record state : Type := {
  st_world : world;
  st_form : form_values;
  st_errors : list issue;
  st_loading : bool;
  st_initialLoading : bool;
}.

Definition on_world (f : world -> world) (s : state) : state :=
  {| st_world := f (st_world s); st_form := st_form s; st_errors := st_errors s;
     st_loading := st_loading s; st_initialLoading := st_initialLoading s |}.

Definition setLoading (b : bool) : M state unit :=
  modify (fun s => {| st_world := st_world s; st_form := st_form s;
                      st_errors := st_errors s; st_loading := b;
                      st_initialLoading := st_initialLoading s |}).

Definition setInitialLoading (b : bool) : M state unit :=
  modify (fun s => {| st_world := st_world s; st_form := st_form s;
                      st_errors := st_errors s; st_loading := st_loading s;
                      st_initialLoading := b |}).

(** [form.reset(values)]. *)
Definition form_reset (v : form_values) : M state unit :=
  modify (fun s => {| st_world := st_world s; st_form := v; st_errors := [];
                      st_loading := st_loading s;
                      st_initialLoading := st_initialLoading s |}).

Definition set_errors (e : list issue) : M state unit :=
  modify (fun s => {| st_world := st_world s; st_form := st_form s; st_errors := e;
                      st_loading := st_loading s;
                      st_initialLoading := st_initialLoading s |}).

Definition request (c : call) : M state response :=
  fun s => let '(r, w) := request_on c (st_world s) in (Return r, on_world (fun _ => w) s).

Definition toast_ (t : toast) : M state unit := modify (on_world (push_toast t)).
Definition navigate (p : string) : M state unit := modify (on_world (go p)).
Definition console_error (e : error) : M state unit := modify (on_world (log_error e)).

(** [if (error) throw error]. *)
Definition throw_if (e : option error) : M state unit :=
  match e with
  | Some e => throw e
  | None => ret tt
  end.

Definition the_order (d : option data) : option order_row :=
  match d with Some (OrderData r) => Some r | _ => None end.

Definition the_items (d : option data) : list item_row :=
  match d with Some (ItemsData rs) => rs | _ => [] end.

Definition load_failed : toast :=
  {| t_variant := Destructive;
     t_title := "خطأ في تحميل الطلب";
     t_description := "حدث خطأ أثناء تحميل بيانات الطلب." |}.

Definition item_of_row (item : item_row) : item_values :=
  {| v_id := Some (i_id item);
     v_product_name := i_product_name item;
     v_model := Some (or_empty (i_model item));
     v_size := Some (or_empty (i_size item));
     v_quantity := of_nullable (i_quantity item);
     v_meters := JNum (or_zero (JNum (Number (of_nullable (i_meters item)))));
     v_unit_price := JNum (Number (JNum (i_unit_price item))) |}.

Definition form_of_rows (orderData : order_row) (itemsData : list item_row) : form_values :=
  {| f_customer_name := o_customer_name orderData;
     f_customer_phone := o_customer_phone orderData;
     f_status := o_status orderData;
     f_fabric_price :=
       JNum (or_zero (JNum (Number (of_nullable (o_fabric_price orderData)))));
     f_tailoring_price :=
       JNum (or_zero (JNum (Number (of_nullable (o_tailoring_price orderData)))));
     f_extra_costs :=
       JNum (or_zero (JNum (Number (of_nullable (o_extra_costs orderData)))));
     f_tax_amount :=
       JNum (or_zero (JNum (Number (of_nullable (o_tax_amount orderData)))));
     f_notes := Some (or_empty (o_notes orderData));
     f_order_items := map item_of_row itemsData |}.

Open Scope action_scope.

Definition fetchOrder (id : string) : M state unit :=
  finally
    (catch
       (order <- request (SelectOrder id);;
        throw_if (r_error order);;;
        items <- request (SelectItems id);;
        throw_if (r_error items);;;
        match the_order (r_data order) with
        | Some orderData => form_reset (form_of_rows orderData (the_items (r_data items)))
        | None => throw TypeError
        end)
       (fun error => console_error error;;; toast_ load_failed))
    (setInitialLoading false).

(** *** Derived totals *)

Definition itemsTotal (watchedItems : list item_values) : number :=
  fold_left
    (fun sum item => add sum (mul (Number (v_quantity item)) (Number (v_unit_price item))))
    watchedItems zero.

Definition totalPieces (watchedItems : list item_values) : number :=
  fold_left (fun sum item => add sum (Number (v_quantity item))) watchedItems zero.

Definition totalPrice (watchedItems : list item_values) (watchedPrices : list value) : number :=
  add (add (add (add (itemsTotal watchedItems)
                     (or_zero (nth 0 watchedPrices JUndefined)))
                (or_zero (nth 1 watchedPrices JUndefined)))
           (or_zero (nth 2 watchedPrices JUndefined)))
      (or_zero (nth 3 watchedPrices JUndefined)).

Definition watchedItems (s : state) : list item_values := f_order_items (st_form s).

Definition watchedPrices (s : state) : list value :=
  [ f_fabric_price (st_form s); f_tailoring_price (st_form s);
    f_extra_costs (st_form s); f_tax_amount (st_form s) ].

(** *** Submission *)

Definition header_patch (s : state) (data : OrderFormData) : order_patch :=
  {| u_customer_name := customer_name data;
     u_customer_phone := customer_phone data;
     u_status := status_key (status_ data);
     u_total_pieces := totalPieces (watchedItems s);
     u_total_price := totalPrice (watchedItems s) (watchedPrices s);
     u_fabric_price := fabric_price data;
     u_tailoring_price := tailoring_price data;
     u_extra_costs := extra_costs data;
     u_tax_amount := tax_amount data;
     u_notes := notes data |}.

Definition orderItem (id : string) (item : item_data) : item_payload :=
  {| n_order_id := id;
     n_product_name := product_name item;
     n_model := model item;
     n_size := size item;
     n_quantity := quantity item;
     n_meters := meters item;
     n_unit_price := unit_price item;
     n_total_price := mul (quantity item) (unit_price item) |}.

Definition update_succeeded : toast :=
  {| t_variant := Plain;
     t_title := "تم تحديث الطلب بنجاح";
     t_description := "تم حفظ التغييرات بنجاح." |}.

Definition update_failed : toast :=
  {| t_variant := Destructive;
     t_title := "خطأ في تحديث الطلب";
     t_description := "حدث خطأ أثناء تحديث الطلب. حاول مرة أخرى." |}.

Definition onSubmit (id : string) (data : OrderFormData) : M state unit :=
  setLoading true;;;
  finally
    (catch
       (patch <- gets (fun s => header_patch s data);;
        updated <- request (UpdateOrder id patch);;
        throw_if (r_error updated);;;
        deleted <- request (DeleteItems id);;
        throw_if (r_error deleted);;;
        let orderItems := map (orderItem id) (order_items_ data) in
        inserted <- request (InsertItems orderItems);;
        throw_if (r_error inserted);;;
        toast_ update_succeeded;;;
        navigate "/dashboard/orders")
       (fun error => console_error error;;; toast_ update_failed))
    (setLoading false).

(** [form.handleSubmit(onValid)]: the resolver runs on the current
    values; the handler is called only when it reports no issue. *)
Definition handleSubmit (onValid : OrderFormData -> M state unit) : M state unit :=
  values <- gets st_form;;
  match orderSchema values with
  | Valid data => set_errors [];;; onValid data
  | Invalid issues => set_errors issues
  end.

Close Scope action_scope.

(** *** Editing the item list *)

Definition blank_item : item_values :=
  {| v_id := None; v_product_name := ""; v_model := Some ""; v_size := Some "";
     v_quantity := JNum (of_int 1); v_meters := JNum (of_int 0);
     v_unit_price := JNum (of_int 0) |}.

Definition append (item : item_values) (fields : list item_values) : list item_values :=
  fields ++ [item].

Definition remove (index : nat) (fields : list item_values) : list item_values :=
  firstn index fields ++ skipn (S index) fields.

(** The remove button of an item is rendered when [fields.length > 1]. *)
Definition remove_shown (fields : list item_values) : bool :=
  (1 <? length fields)%nat.

(** A click on the remove button of item [index], when there is one. *)
Definition click_remove (index : nat) (fields : list item_values) : list item_values :=
  if remove_shown fields then remove index fields else fields.

(** The start of a session on the edit route. *)
Definition mounted (t : tables) (fails : call -> bool) : state :=
  {| st_world := {| w_tables := t; w_fails := fails; w_calls := [];
                    w_toasts := []; w_route := None; w_console := [] |};
     st_form := defaultValues; st_errors := [];
     st_loading := false; st_initialLoading := true |}.

End EditOrder.

(** ** The order list: status badge *)

Module Orders.

Definition variants : gmap string string :=
  {[ "pending" := "outline"; "completed" := "default"; "cancelled" := "destructive" ]}.

Definition labels : gmap string string :=
  {[ "pending" := "قيد التنفيذ"; "completed" := "مكتمل"; "cancelled" := "ملغي" ]}.

(** The element [<Badge variant={...}>{...}</Badge>]. *)
Record Badge : Type := {
  variant : prop;
  children : prop;
}.

Definition getStatusBadge (status : string) : Badge :=
  {| variant := or_prop (get variants status) (PStr "secondary");
     children := or_prop (get labels status) (PStr status) |}.

End Orders.

(** ** The dashboard: statistics *)

Module Dashboard.

Record Stats : Type := {
  totalOrders : nat;
  totalRevenue : number;
  totalCustomers : nat;
  pendingOrders : nat;
  completedOrders : nat;
}.

Record state : Type := {
  st_world : world;
  stats : Stats;
}.

Definition initial_stats : Stats :=
  {| totalOrders := 0; totalRevenue := of_int 0; totalCustomers := 0;
     pendingOrders := 0; completedOrders := 0 |}.

Definition request (c : call) : M state response :=
  fun s => let '(r, w) := request_on c (st_world s) in
           (Return r, {| st_world := w; stats := stats s |}).

Definition setStats (v : Stats) : M state unit :=
  modify (fun s => {| st_world := st_world s; stats := v |}).

Definition console_error (e : error) : M state unit :=
  modify (fun s => {| st_world := log_error e (st_world s); stats := stats s |}).

Definition the_orders (d : option data) : option (list totals_row) :=
  match d with Some (OrderTotals rs) => Some rs | _ => None end.

Definition the_customers (d : option data) : option (list string) :=
  match d with Some (CustomerIds ids) => Some ids | _ => None end.

(** The object handed to [setStats]. *)
Definition computed (orders : list totals_row) (customers : option (list string)) : Stats :=
  let totalRevenue :=
    fold_left (fun sum order => add sum (Number (JNum (total_price order)))) orders zero in
  let pendingOrders :=
    length (List.filter (fun order => bool_decide (status order = Some "pending")) orders) in
  let completedOrders :=
    length (List.filter (fun order => bool_decide (status order = Some "completed")) orders) in
  {| totalOrders := length orders;
     totalRevenue := totalRevenue;
     totalCustomers := match customers with Some c => length c | None => 0 end;
     pendingOrders := pendingOrders;
     completedOrders := completedOrders |}.

Open Scope action_scope.

Definition fetchStats : M state unit :=
  catch
    (orders <- request SelectOrderTotals;;
     customers <- request SelectCustomerIds;;
     match the_orders (r_data orders) with
     | Some orders => setStats (computed orders (the_customers (r_data customers)))
     | None => ret tt
     end)
    (fun error => console_error error).

Close Scope action_scope.

Definition mounted (t : tables) (fails : call -> bool) : state :=
  {| st_world := {| w_tables := t; w_fails := fails; w_calls := [];
                    w_toasts := []; w_route := None; w_console := [] |};
     stats := initial_stats |}.

End Dashboard.

(** ** Vocabulary of the specification

    The notions the specification's sentences use, written from their
    wording; the theorems below compare them with the code. *)

Module Spec.

Import EditOrder.

(** [Σ] over a list taken in list order: [Σ [] = 0] and
    [Σ (l ++ [x]) = Σ l + x]. *)
Fixpoint sum_rev (l : list number) : number :=
  match l with
  | [] => zero
  | x :: l => add (sum_rev l) x
  end.

Definition sigma (l : list number) : number := sum_rev (rev l).

(** [item.quantity * item.unit_price]. *)
Definition line_total (item : item_values) : number :=
  mul (Number (v_quantity item)) (Number (v_unit_price item)).

(** A surcharge that is a number: a binary64 value other than NaN. *)
Definition numeric (x : number) : Prop := is_double x /\ x <> NaN.

(** The line item [{qty: q, price: p}]. *)
Definition line_of (q p : number) : item_values :=
  {| v_id := None; v_product_name := ""; v_model := None; v_size := None;
     v_quantity := JNum q; v_meters := JUndefined; v_unit_price := JNum p |}.

Definition line (q p : Z) : item_values := line_of (of_int q) (of_int p).

(** A line item whose quantity and unit price are the non-negative
    integers [fst qp] and [snd qp], each below 2^53. *)
Definition whole_item (item : item_values) (qp : Z * Z) : Prop :=
  0 <= fst qp < 2 ^ 53 /\ 0 <= snd qp < 2 ^ 53 /\
  v_quantity item = JNum (of_int (fst qp)) /\
  v_unit_price item = JNum (of_int (snd qp)).

Definition total_of (amounts : list (Z * Z)) : Z :=
  fold_right (fun qp acc => fst qp * snd qp + acc) 0 amounts.

Definition pieces_of (amounts : list (Z * Z)) : Z :=
  fold_right (fun qp acc => fst qp + acc) 0 amounts.

(** The number of rows whose status is [k]. *)
Fixpoint count_status (k : string) (rows : list totals_row) : nat :=
  match rows with
  | [] => 0
  | r :: rows =>
      if bool_decide (status r = Some k) then S (count_status k rows)
      else count_status k rows
  end.

(** What makes two item rows "semantically equivalent": product name,
    quantity and unit price. *)
Definition triple : Type := string * option number * number.

Definition triple_of (r : item_row) : triple :=
  (i_product_name r, i_quantity r, i_unit_price r).

(** The triples of the item rows an order owns. *)
Definition triples (id : string) (t : tables) : list triple :=
  map triple_of (select_items id t).

(** A monetary column that is missing or not a number. *)
Definition blank (o : option number) : Prop := o = None \/ o = Some NaN.

(** The conditions the specification puts on a line item. *)
Definition item_ok (item : item_values) : Prop :=
  v_product_name item <> "" /\
  (exists q, v_quantity item = JNum q /\ ge q (of_int 1) = true) /\
  (exists p, v_unit_price item = JNum p /\ ge p (of_int 0) = true) /\
  (v_meters item = JUndefined \/ exists m, v_meters item = JNum m /\ m <> NaN).

(** The same item with the optional fields left out. *)
Definition without_optionals (item : item_values) : item_values :=
  {| v_id := v_id item; v_product_name := v_product_name item;
     v_model := None; v_size := None;
     v_quantity := v_quantity item; v_meters := JUndefined;
     v_unit_price := v_unit_price item |}.

(** ... and on a surcharge field and on the header. *)
Definition surcharge_ok (v : value) : Prop :=
  v = JUndefined \/ exists x, v = JNum x /\ ge x (of_int 0) = true.

Definition header_ok (f : form_values) : Prop :=
  f_customer_name f <> "" /\ f_customer_phone f <> "" /\
  (exists s, f_status f = Some (status_key s)) /\
  surcharge_ok (f_fabric_price f) /\ surcharge_ok (f_tailoring_price f) /\
  surcharge_ok (f_extra_costs f) /\ surcharge_ok (f_tax_amount f).

End Spec.

(** ** A small database used in the examples *)

Module Example.

Import EditOrder.

Definition order : order_row :=
  {| o_id := "o1"; o_customer_name := "Ali"; o_customer_phone := "0550000000";
     o_status := Some "pending"; o_total_pieces := Some (of_int 2);
     o_total_price := of_int 23; o_fabric_price := None;
     o_tailoring_price := Some (of_int 3); o_extra_costs := None;
     o_tax_amount := None; o_notes := None |}.

Definition item : item_row :=
  {| i_id := "a1"; i_order_id := Some "o1"; i_product_name := "thobe";
     i_model := None; i_size := Some "L"; i_quantity := Some (of_int 2);
     i_meters := None; i_unit_price := of_int 10; i_total_price := of_int 20 |}.

Definition db : tables :=
  {| orders := [order]; order_items := [item]; customers := []; id_seq := 0 |}.

(** The same order with an item whose unit price is not a number. *)
Definition unpriced_item : item_row :=
  {| i_id := "a1"; i_order_id := Some "o1"; i_product_name := "thobe";
     i_model := None; i_size := Some "L"; i_quantity := Some (of_int 2);
     i_meters := None; i_unit_price := NaN; i_total_price := of_int 20 |}.

Definition unpriced_db : tables :=
  {| orders := [order]; order_items := [unpriced_item]; customers := []; id_seq := 0 |}.

Definition no_faults (c : call) : bool := false.

Definition delete_fails (c : call) : bool :=
  match c with DeleteItems _ => true | _ => false end.

Definition insert_fails (c : call) : bool :=
  match c with InsertItems _ => true | _ => false end.

Definition data : OrderFormData :=
  {| customer_name := "Omar"; customer_phone := "0551111111"; status_ := completed;
     fabric_price := of_int 3; tailoring_price := of_int 2; extra_costs := of_int 0;
     tax_amount := of_int 1; notes := Some "";
     order_items_ :=
       [ {| item_id := None; product_name := "thobe"; model := Some ""; size := Some "L";
            quantity := of_int 2; meters := Some (of_int 0); unit_price := of_int 10 |} ] |}.

(** A form with a valid header and no line item. *)
Definition form_without_items : form_values :=
  {| f_customer_name := "Ali"; f_customer_phone := "0550000000";
     f_status := Some "pending";
     f_fabric_price := JNum (of_int 0); f_tailoring_price := JNum (of_int 0);
     f_extra_costs := JNum (of_int 0); f_tax_amount := JNum (of_int 0);
     f_notes := Some ""; f_order_items := [] |}.

Definition named_line : item_values :=
  {| v_id := None; v_product_name := "thobe"; v_model := None; v_size := None;
     v_quantity := JNum (of_int 2); v_meters := JUndefined;
     v_unit_price := JNum (of_int 10) |}.

End Example.

(** ** The order editor: the per-item preview line *)

Module EditOrderView.

Import EditOrder.

(** [watchedItems[index]?.quantity] and [watchedItems[index]?.unit_price]. *)
Definition quantity_at (watchedItems : list item_values) (index : nat) : value :=
  match nth_error watchedItems index with
  | Some item => v_quantity item
  | None => JUndefined
  end.

Definition unit_price_at (watchedItems : list item_values) (index : nat) : value :=
  match nth_error watchedItems index with
  | Some item => v_unit_price item
  | None => JUndefined
  end.

(** The "total of this product" shown under item [index]. *)
Definition lineTotal (watchedItems : list item_values) (index : nat) : number :=
  mul (or_zero (quantity_at watchedItems index))
      (or_zero (unit_price_at watchedItems index)).

End EditOrderView.

(** ** The order details page *)

Module OrderDetails.

(** [{ ...orderData, order_items: itemsData || [] }]: the fields of the
    order row, when there is one, and the item rows. *)
Record OrderDetail : Type := {
  d_order : option order_row;
  d_order_items : list item_row;
}.

Record state : Type := {
  st_world : world;
  order : option OrderDetail;
  loading : bool;
}.

Definition request (c : call) : M state response :=
  fun s => let '(r, w) := request_on c (st_world s) in
           (Return r, {| st_world := w; order := order s; loading := loading s |}).

Definition setOrder (o : OrderDetail) : M state unit :=
  modify (fun s => {| st_world := st_world s; order := Some o; loading := loading s |}).

Definition setLoading (b : bool) : M state unit :=
  modify (fun s => {| st_world := st_world s; order := order s; loading := b |}).

Definition console_error (e : error) : M state unit :=
  modify (fun s => {| st_world := log_error e (st_world s); order := order s;
                      loading := loading s |}).

Definition throw_if (e : option error) : M state unit :=
  match e with
  | Some e => throw e
  | None => ret tt
  end.

Open Scope action_scope.

Definition fetchOrderDetails (id : string) : M state unit :=
  finally
    (catch
       (orderData <- request (SelectOrder id);;
        throw_if (r_error orderData);;;
        itemsData <- request (SelectItems id);;
        throw_if (r_error itemsData);;;
        setOrder {| d_order := EditOrder.the_order (r_data orderData);
                    d_order_items := EditOrder.the_items (r_data itemsData) |})
       (fun error => console_error error))
    (setLoading false).

Close Scope action_scope.

Definition mounted (t : tables) (fails : call -> bool) : state :=
  {| st_world := {| w_tables := t; w_fails := fails; w_calls := [];
                    w_toasts := []; w_route := None; w_console := [] |};
     order := None; loading := true |}.

(** Which of the three screens the component returns. *)
Inductive screen : Type :=
| Loading
| NotFound
| Details (o : OrderDetail).

Definition view (s : state) : screen :=
  if loading s then Loading
  else match order s with
       | None => NotFound
       | Some o => Details o
       end.



(** [item.model || 'غير محدد'] and [item.size || 'غير محدد']. *)
Definition or_unspecified (s : option string) : string :=
  match s with
  | Some "" | None => "غير محدد"
  | Some s => s
  end.

End OrderDetails.

(** ** Further vocabulary *)

Module Notions.

Import EditOrder.

(** The issues a parse reports. *)
Definition issues_of {A} (r : parsed A) : list issue :=
  match r with
  | Valid _ => []
  | Invalid l => l
  end.

(** The keys of the form's fields. *)
Definition header_keys : list string :=
  [ "customer_name"; "customer_phone"; "status"; "fabric_price";
    "tailoring_price"; "extra_costs"; "tax_amount"; "notes" ]%string.

Definition item_keys : list string :=
  [ "id"; "product_name"; "model"; "size"; "quantity"; "meters";
    "unit_price" ]%string.

(** An issue that points at a field of the form with [n] line items. *)
Definition located (n : nat) (i : issue) : Prop :=
  (exists k, path i = [Key k] /\ In k header_keys) \/
  (exists j k, path i = [Key "order_items"; Index j; Key k] /\
               (j < n)%nat /\ In k item_keys).

(** An item row without its identifier. *)
Definition unkeyed (r : item_row) :=
  (i_order_id r, i_product_name r, i_model r, i_size r,
   i_quantity r, i_meters r, i_unit_price r, i_total_price r).


(** A stored surcharge the editor accepts back: missing, falsy, or >= 0. *)
Definition storable (o : option number) : Prop :=
  match o with
  | None => True
  | Some x => truthy x = false \/ ge x (of_int 0) = true
  end.

(** A stored item row the editor accepts back. *)
Definition editable (r : item_row) : Prop :=
  i_product_name r <> "" /\
  (exists q, i_quantity r = Some q /\ ge q (of_int 1) = true) /\
  ge (i_unit_price r) (of_int 0) = true.

(** Equal amounts, a negative zero having become zero. *)
Definition same_amount (x y : number) : Prop :=
  y = x \/ (x = neg_zero /\ y = zero).

(** A statistics row whose total is the non-negative integer [z]. *)
Definition whole_total (r : totals_row) (z : Z) : Prop :=
  0 <= z /\ total_price r = of_int z.

Definition sum_of (zs : list Z) : Z := fold_right Z.add 0 zs.

(** The issue with message [msg] at field [k] of line item [i]. *)
Definition item_issue (i : nat) (k msg : string) : issue :=
  {| path := [Key "order_items"; Index i; Key k]; message := Some msg |}.

(** Parsed data that carries the values of the form. *)
Definition surcharge_mirrors (v : value) (x : number) : Prop :=
  (v = JUndefined /\ x = of_int 0) \/ (v = JNum x /\ x <> NaN).

Definition item_mirrors (v : item_values) (d : item_data) : Prop :=
  item_id d = v_id v /\
  product_name d = v_product_name v /\
  model d = v_model v /\
  size d = v_size v /\
  v_quantity v = JNum (quantity d) /\
  v_unit_price v = JNum (unit_price d) /\
  ((v_meters v = JUndefined /\ meters d = None) \/
   (exists m, v_meters v = JNum m /\ meters d = Some m)).

Definition form_mirrors (f : form_values) (d : OrderFormData) : Prop :=
  customer_name d = f_customer_name f /\
  customer_phone d = f_customer_phone f /\
  f_status f = Some (status_key (status_ d)) /\
  surcharge_mirrors (f_fabric_price f) (fabric_price d) /\
  surcharge_mirrors (f_tailoring_price f) (tailoring_price d) /\
  surcharge_mirrors (f_extra_costs f) (extra_costs d) /\
  surcharge_mirrors (f_tax_amount f) (tax_amount d) /\
  notes d = f_notes f /\
  Forall2 item_mirrors (f_order_items f) (order_items_ d).


End Notions.

(** ** Auxiliary notions for the proofs *)

(** The binary64 representation of a positive integer below 2^53. *)
Definition canon_int (p : positive) : number :=
  let d := Zpos (digits2_pos p) in
  S754_finite false (Z.to_pos (Zpos p * 2 ^ (53 - d))) (d - 53).

(** Finite values produced by the rounding functions never carry an
    exponent below [emin = -1074]. *)
Definition wf (x : number) : Prop :=
  match x with S754_finite _ _ e => -1074 <= e | _ => True end.

(** A parse that produced a value. *)
Definition valid {A} (r : parsed A) : Prop := exists a, r = Valid a.

(** A running sum that starts from [+0]: well formed and not [-0]. *)
Definition clean (x : number) : Prop := wf x /\ x <> neg_zero.

(** * Facts about binary64 arithmetic *)

Lemma digits_bounds p :
  2 ^ (Zpos (digits2_pos p) - 1) <= Zpos p < 2 ^ Zpos (digits2_pos p).
Proof.
  induction p as [p IH|p IH|]; cbn [digits2_pos].
  - rewrite Pos2Z.inj_succ, Z.pow_succ_r by lia.
    replace (Z.succ (Zpos (digits2_pos p)) - 1) with (Z.succ (Zpos (digits2_pos p) - 1)) by lia.
    rewrite Z.pow_succ_r by lia. lia.
  - rewrite Pos2Z.inj_succ, Z.pow_succ_r by lia.
    replace (Z.succ (Zpos (digits2_pos p)) - 1) with (Z.succ (Zpos (digits2_pos p) - 1)) by lia.
    rewrite Z.pow_succ_r by lia. lia.
  - simpl. lia.
Qed.

Lemma digits_unique p d :
  2 ^ (d - 1) <= Zpos p < 2 ^ d -> Zpos (digits2_pos p) = d.
Proof.
  intros [Hlo Hhi]. pose proof (digits_bounds p) as [Blo Bhi].
  set (k := Zpos (digits2_pos p)) in *.
  assert (0 < d).
  { destruct (Z_lt_le_dec 0 d); [assumption|].
    destruct (Z.eq_dec d 0) as [->|]; [simpl in Hhi; lia|].
    rewrite Z.pow_neg_r in Hhi by lia. lia. }
  destruct (Z_lt_le_dec k d).
  - assert (2 ^ k <= 2 ^ (d - 1)) by (apply Z.pow_le_mono_r; lia). lia.
  - destruct (Z_lt_le_dec d k); [|lia].
    assert (2 ^ d <= 2 ^ (k - 1)) by (apply Z.pow_le_mono_r; lia). lia.
Qed.

Lemma digits_shift p q k :
  0 <= k -> Zpos q = Zpos p * 2 ^ k ->
  Zpos (digits2_pos q) = Zpos (digits2_pos p) + k.
Proof.
  intros Hk E. apply digits_unique. rewrite E.
  pose proof (digits_bounds p) as [Blo Bhi].
  replace (Zpos (digits2_pos p) + k - 1) with ((Zpos (digits2_pos p) - 1) + k) by lia.
  assert (0 < 2 ^ k) by (apply Z.pow_pos_nonneg; lia).
  rewrite !Z.pow_add_r by lia. nia.
Qed.

Lemma iter_pos_nat {A} (f : A -> A) p x :
  SpecFloat.iter_pos f p x = Nat.iter (Pos.to_nat p) f x.
Proof.
  revert x. induction p as [p IH|p IH|]; intros x; cbn [SpecFloat.iter_pos].
  - rewrite !IH, Pos2Nat.inj_xI.
    replace (S (2 * Pos.to_nat p))%nat with (Pos.to_nat p + (Pos.to_nat p + 1))%nat by lia.
    rewrite !Nat.iter_add. reflexivity.
  - rewrite !IH, Pos2Nat.inj_xO.
    replace (2 * Pos.to_nat p)%nat with (Pos.to_nat p + Pos.to_nat p)%nat by lia.
    rewrite Nat.iter_add. reflexivity.
  - reflexivity.
Qed.

Lemma shr_1_m r : 0 <= shr_m r -> shr_m (shr_1 r) = shr_m r / 2.
Proof.
  destruct r as [m r s]. cbn [shr_m]. intros H.
  destruct m as [|[p|p|]|p]; cbn [shr_1 shr_m]; try reflexivity.
  - apply Z.div_unique with 1; lia.
  - apply Z.div_unique with 0; lia.
  - lia.
Qed.

Lemma shr_iter_m n r :
  0 <= shr_m r -> shr_m (Nat.iter n shr_1 r) = shr_m r / 2 ^ Z.of_nat n.
Proof.
  intros H. induction n as [|n IH].
  - simpl. now rewrite Z.div_1_r.
  - rewrite Nat.iter_succ, shr_1_m.
    + rewrite IH, Nat2Z.inj_succ, Z.pow_succ_r by lia.
      rewrite Z.div_div by (try apply Z.pow_pos_nonneg; lia).
      f_equal. lia.
    + rewrite IH. apply Z.div_pos; [lia|apply Z.pow_pos_nonneg; lia].
Qed.

Lemma shr_1_exact m :
  0 <= m -> shr_1 (Build_shr_record (2 * m) false false) = Build_shr_record m false false.
Proof. intros H. destruct m as [|p|p]; [reflexivity|reflexivity|lia]. Qed.

Lemma shr_iter_exact n m :
  0 <= m ->
  Nat.iter n shr_1 (Build_shr_record (m * 2 ^ Z.of_nat n) false false)
  = Build_shr_record m false false.
Proof.
  intros H. revert m H. induction n as [|n IH]; intros m H.
  - simpl. now rewrite Z.mul_1_r.
  - rewrite Nat.iter_succ_r.
    rewrite Nat2Z.inj_succ, Z.pow_succ_r by lia.
    replace (m * (2 * 2 ^ Z.of_nat n)) with (2 * (m * 2 ^ Z.of_nat n)) by lia.
    rewrite shr_1_exact; [apply IH; lia|].
    apply Z.mul_nonneg_nonneg; [lia|apply Z.pow_nonneg; lia].
Qed.

Lemma fexp_53 e : fexp prec emax e = Z.max (e - 53) (-1074).
Proof. reflexivity. Qed.

Lemma pow2_pos k : 0 <= k -> 0 < 2 ^ k.
Proof. intros; apply Z.pow_pos_nonneg; lia. Qed.

Lemma shr_exact m e k :
  0 <= m -> 0 <= k ->
  shr (Build_shr_record (m * 2 ^ k) false false) e k
  = (Build_shr_record m false false, e + k).
Proof.
  intros Hm Hk. destruct k as [|p|p]; [|clear Hk|lia].
  - simpl. now rewrite Z.mul_1_r, Z.add_0_r.
  - cbn [shr]. rewrite iter_pos_nat.
    rewrite <- (positive_nat_Z p) at 1. now rewrite shr_iter_exact.
Qed.

Lemma round_aux_exact s N e k :
  0 <= k ->
  fexp prec emax (Zpos (digits2_pos N) + k + e) = e + k ->
  e + k <= emax - prec ->
  binary_round_aux prec emax s (Zpos N * 2 ^ k) e loc_Exact = S754_finite s N (e + k).
Proof.
  intros Hk Hf Hmax.
  pose proof (pow2_pos k Hk) as Hp.
  destruct (Zpos N * 2 ^ k) as [|q|q] eqn:E; try lia.
  assert (Hd : Zpos (digits2_pos q) = Zpos (digits2_pos N) + k)
    by (apply digits_shift; auto).
  unfold binary_round_aux, shr_fexp. cbn [Zdigits2 shr_record_of_loc].
  rewrite Hd, Hf. replace (e + k - e) with k by lia.
  rewrite <- E, shr_exact by lia.
  cbn [shr_m loc_of_shr_record round_nearest_even Zdigits2 shr_record_of_loc].
  replace (Zpos (digits2_pos N) + (e + k)) with (Zpos (digits2_pos N) + k + e) by lia.
  rewrite Hf, Z.sub_diag. cbn [shr shr_m].
  destruct (Z.leb_spec (e + k) (emax - prec)); [reflexivity|lia].
Qed.

Lemma pos_iter_xO m d : Zpos (Pos.iter xO m d) = Zpos m * 2 ^ Zpos d.
Proof.
  induction d as [|d IH] using Pos.peano_ind.
  - simpl. lia.
  - rewrite Pos.iter_succ, Pos2Z.inj_xO, IH, Pos2Z.inj_succ, Z.pow_succ_r by lia. lia.
Qed.

Lemma shl_align_spec mx ex ex' :
  (ex' < ex /\ snd (shl_align mx ex ex') = ex'
     /\ Zpos (fst (shl_align mx ex ex')) = Zpos mx * 2 ^ (ex - ex'))
  \/ (ex <= ex' /\ shl_align mx ex ex' = (mx, ex)).
Proof.
  unfold shl_align. destruct (ex' - ex) as [|d|d] eqn:E.
  - right. split; [lia|reflexivity].
  - right. split; [lia|reflexivity].
  - left. cbn [fst snd]. rewrite pos_iter_xO.
    replace (ex - ex') with (Zpos d) by lia. repeat split; lia.
Qed.

(** A value [mx * 2^ex] that is exactly [N * 2^e'] at the target exponent
    [e'] is rounded to exactly that float. *)
Lemma binary_round_exact s mx ex N :
  let e' := fexp prec emax (Zpos (digits2_pos mx) + ex) in
  e' <= emax - prec ->
  (e' <= ex /\ Zpos N = Zpos mx * 2 ^ (ex - e')) \/
  (ex <= e' /\ Zpos mx = Zpos N * 2 ^ (e' - ex)) ->
  binary_round prec emax s mx ex = S754_finite s N e'.
Proof.
  intros e' Hmax H. unfold binary_round. fold e'.
  destruct (shl_align_spec mx ex e') as [(Hlt & Hs & Hf)|(Hle & ->)].
  - destruct H as [[_ HN]|[Hge _]]; [|lia].
    destruct (shl_align mx ex e') as [mz ez]. cbn [fst snd] in *. subst ez.
    assert (mz = N) by (apply Pos2Z.inj; lia). subst mz.
    pose proof (round_aux_exact s N e' 0) as R.
    rewrite Z.mul_1_r, !Z.add_0_r in R. apply R; [lia| |lia].
    rewrite (digits_shift mx N (ex - e')) by (auto; lia).
    unfold e'. f_equal. lia.
  - assert (HN : Zpos mx = Zpos N * 2 ^ (e' - ex)).
    { destruct H as [[Hge HN]|[_ HN]]; [|exact HN].
      replace e' with ex by lia. replace ex with e' in HN by lia.
      rewrite Z.sub_diag in *. simpl in *. lia. }
    rewrite HN.
    replace e' with (ex + (e' - ex)) at 2 by lia.
    apply round_aux_exact; [lia| |lia].
    rewrite <- (digits_shift N mx (e' - ex)) by (auto; lia).
    unfold e'. lia.
Qed.

Lemma digits_le_of_lt p n : 0 <= n -> Zpos p < 2 ^ n -> Zpos (digits2_pos p) <= n.
Proof.
  intros Hn H. pose proof (digits_bounds p) as [Blo _].
  destruct (Z_le_gt_dec (Zpos (digits2_pos p)) n) as [|G]; [assumption|].
  assert (2 ^ n <= 2 ^ (Zpos (digits2_pos p) - 1)) by (apply Z.pow_le_mono_r; lia).
  lia.
Qed.

Lemma digits_gt_of_le p n : 0 <= n -> 2 ^ n <= Zpos p -> n < Zpos (digits2_pos p).
Proof.
  intros Hn H. pose proof (digits_bounds p) as [_ Bhi].
  destruct (Z_lt_le_dec n (Zpos (digits2_pos p))) as [|G]; [assumption|].
  assert (2 ^ Zpos (digits2_pos p) <= 2 ^ n) by (apply Z.pow_le_mono_r; lia).
  lia.
Qed.

Lemma digits_mono p q :
  Zpos p <= Zpos q -> Zpos (digits2_pos p) <= Zpos (digits2_pos q).
Proof.
  intros H. pose proof (digits_bounds p) as [Blo _].
  assert (Zpos (digits2_pos p) - 1 < Zpos (digits2_pos q))
    by (apply digits_gt_of_le; lia).
  lia.
Qed.

Lemma canon_mant p :
  Zpos p < 2 ^ 53 ->
  let d := Zpos (digits2_pos p) in
  1 <= d <= 53 /\ Zpos (Z.to_pos (Zpos p * 2 ^ (53 - d))) = Zpos p * 2 ^ (53 - d).
Proof.
  intros H d. assert (d <= 53) by (apply digits_le_of_lt; lia).
  assert (1 <= d) by (unfold d; lia).
  split; [lia|]. pose proof (pow2_pos (53 - d)). rewrite Z2Pos.id; nia.
Qed.

Lemma of_int_pos p : Zpos p < 2 ^ 53 -> of_int (Zpos p) = canon_int p.
Proof.
  intros H. destruct (canon_mant p H) as [Hd HN].
  unfold of_int, binary_normalize, canon_int.
  set (d := Zpos (digits2_pos p)) in *.
  assert (E : fexp prec emax (d + 0) = d - 53) by (rewrite fexp_53; lia).
  pose proof (binary_round_exact false p 0 (Z.to_pos (Zpos p * 2 ^ (53 - d)))) as R.
  cbv zeta in R. fold d in R. rewrite E in R. apply R.
  - unfold emax, prec. lia.
  - left. split; [lia|]. rewrite HN. f_equal. f_equal. lia.
Qed.

Lemma add_canon a b :
  Zpos a + Zpos b < 2 ^ 53 ->
  add (canon_int a) (canon_int b) = canon_int (a + b).
Proof.
  intros H.
  destruct (canon_mant a ltac:(lia)) as [Hda Ha].
  destruct (canon_mant b ltac:(lia)) as [Hdb Hb].
  destruct (canon_mant (a + b) ltac:(lia)) as [Hdc Hc].
  pose proof (digits_mono a (a + b) ltac:(lia)) as Mab.
  pose proof (digits_mono b (a + b) ltac:(lia)) as Mba.
  unfold add, canon_int, SFadd.
  set (da := Zpos (digits2_pos a)) in *.
  set (db := Zpos (digits2_pos b)) in *.
  set (dc := Zpos (digits2_pos (a + b))) in *.
  set (ma := Z.to_pos (Zpos a * 2 ^ (53 - da))) in *.
  set (mb := Z.to_pos (Zpos b * 2 ^ (53 - db))) in *.
  set (mc := Z.to_pos (Zpos (a + b) * 2 ^ (53 - dc))) in *.
  set (ez := Z.min (da - 53) (db - 53)).
  assert (Hez : ez <= da - 53 /\ ez <= db - 53 /\ ez <= dc - 53 /\ ez <= 0) by lia.
  assert (HA : Zpos (fst (shl_align ma (da - 53) ez)) = Zpos a * 2 ^ (- ez)).
  { destruct (shl_align_spec ma (da - 53) ez) as [(_ & _ & ->)|(Hle & ->)].
    - rewrite Ha, <- Z.mul_assoc, <- Z.pow_add_r by lia. f_equal. f_equal. lia.
    - cbn [fst]. rewrite Ha. f_equal. f_equal. lia. }
  assert (HB : Zpos (fst (shl_align mb (db - 53) ez)) = Zpos b * 2 ^ (- ez)).
  { destruct (shl_align_spec mb (db - 53) ez) as [(_ & _ & ->)|(Hle & ->)].
    - rewrite Hb, <- Z.mul_assoc, <- Z.pow_add_r by lia. f_equal. f_equal. lia.
    - cbn [fst]. rewrite Hb. f_equal. f_equal. lia. }
  cbn [cond_Zopp Z.add binary_normalize].
  set (sm := (fst (shl_align ma (da - 53) ez) + fst (shl_align mb (db - 53) ez))%positive).
  assert (HS : Zpos sm = Zpos (a + b) * 2 ^ (- ez)).
  { unfold sm. rewrite Pos2Z.inj_add, HA, HB, Pos2Z.inj_add. ring. }
  assert (HdS : Zpos (digits2_pos sm) = dc + - ez) by (apply digits_shift; auto; lia).
  pose proof (binary_round_exact false sm ez mc) as R. cbv zeta in R.
  assert (E : fexp prec emax (Zpos (digits2_pos sm) + ez) = dc - 53)
    by (rewrite HdS, fexp_53; lia).
  rewrite E in R. apply R.
  - unfold emax, prec. lia.
  - right. split; [lia|]. rewrite HS, Hc, <- Z.mul_assoc, <- Z.pow_add_r by lia.
    f_equal. f_equal. lia.
Qed.

Lemma mul_canon a b :
  Zpos a * Zpos b < 2 ^ 53 ->
  mul (canon_int a) (canon_int b) = canon_int (a * b).
Proof.
  intros H.
  assert (Zpos a < 2 ^ 53 /\ Zpos b < 2 ^ 53) as [Ha0 Hb0].
  { remember (2 ^ 53) as P. clear HeqP. nia. }
  destruct (canon_mant a Ha0) as [Hda Ha].
  destruct (canon_mant b Hb0) as [Hdb Hb].
  destruct (canon_mant (a * b) ltac:(lia)) as [Hdc Hc].
  pose proof (digits_bounds a) as [La _]. pose proof (digits_bounds b) as [Lb _].
  unfold mul, canon_int, SFmul.
  set (da := Zpos (digits2_pos a)) in *.
  set (db := Zpos (digits2_pos b)) in *.
  set (dc := Zpos (digits2_pos (a * b))) in *.
  set (ma := Z.to_pos (Zpos a * 2 ^ (53 - da))) in *.
  set (mb := Z.to_pos (Zpos b * 2 ^ (53 - db))) in *.
  set (mc := Z.to_pos (Zpos (a * b) * 2 ^ (53 - dc))) in *.
  assert (Hk : da + db - 2 < dc).
  { apply digits_gt_of_le; [lia|].
    replace (da + db - 2) with ((da - 1) + (db - 1)) by lia.
    rewrite Z.pow_add_r, Pos2Z.inj_mul by lia.
    pose proof (pow2_pos (da - 1)). pose proof (pow2_pos (db - 1)).
    clear - La Lb H0 H1. nia. }
  assert (Hdm : Zpos (digits2_pos mc) = 53).
  { rewrite (digits_shift (a * b) mc (53 - dc)) by (auto; lia). fold dc. lia. }
  cbn [xorb].
  replace (Zpos (ma * mb)) with (Zpos mc * 2 ^ (53 + dc - da - db)).
  - replace (dc - 53) with ((da - 53 + (db - 53)) + (53 + dc - da - db)) by lia.
    apply round_aux_exact; [lia| |unfold emax, prec; lia].
    rewrite Hdm, fexp_53. lia.
  - rewrite Pos2Z.inj_mul, Ha, Hb, Hc, Pos2Z.inj_mul.
    transitivity (Zpos a * Zpos b * 2 ^ (106 - da - db)).
    + rewrite <- Z.mul_assoc, <- Z.pow_add_r by lia. f_equal. f_equal. lia.
    + replace (106 - da - db) with ((53 - da) + (53 - db)) by lia.
      rewrite Z.pow_add_r by lia. ring.
Qed.

Lemma shr_m_of_loc m l : shr_m (shr_record_of_loc m l) = m.
Proof. destruct l as [|[ | | ]]; reflexivity. Qed.

Lemma shr_fexp_exp m e l : -1074 <= snd (shr_fexp prec emax m e l).
Proof.
  unfold shr_fexp, shr. rewrite fexp_53.
  destruct (Z.max (Zdigits2 m + e - 53) (-1074) - e) eqn:E; cbn [snd]; lia.
Qed.

Lemma shr_fexp_pos m e l :
  0 < m -> -1074 <= e -> 0 < shr_m (fst (shr_fexp prec emax m e l)).
Proof.
  intros Hm He. destruct m as [|p|p]; try lia.
  unfold shr_fexp, shr. rewrite fexp_53. cbn [Zdigits2].
  pose proof (digits_bounds p) as [Blo _].
  set (d := Zpos (digits2_pos p)) in *.
  destruct (Z.max (d + e - 53) (-1074) - e) as [|k|k] eqn:E; cbn [fst];
    rewrite ?shr_m_of_loc; try lia.
  rewrite iter_pos_nat, shr_iter_m, shr_m_of_loc, positive_nat_Z
    by (rewrite shr_m_of_loc; lia).
  apply Z.div_str_pos. split; [apply pow2_pos; lia|].
  assert (2 ^ Zpos k <= 2 ^ (d - 1)) by (apply Z.pow_le_mono_r; lia). lia.
Qed.

Lemma round_nearest_even_pos m l : 0 < m -> 0 < round_nearest_even m l.
Proof.
  intros H. destruct l as [|[ | | ]]; cbn [round_nearest_even]; try lia.
  destruct (Z.even m); lia.
Qed.

Lemma round_aux_wf s m e l : wf (binary_round_aux prec emax s m e l).
Proof.
  unfold binary_round_aux.
  destruct (shr_fexp prec emax m e l) as [mrs' e'].
  pose proof (shr_fexp_exp (round_nearest_even (shr_m mrs') (loc_of_shr_record mrs')) e' loc_Exact) as H.
  destruct (shr_fexp prec emax _ e' loc_Exact) as [mrs'' e'']. cbn [snd] in H.
  destruct (shr_m mrs''); cbn [wf]; auto.
  destruct (e'' <=? emax - prec); cbn [wf]; auto.
Qed.

Lemma round_aux_nonzero s m e l z :
  0 < m -> -1074 <= e -> binary_round_aux prec emax s m e l <> S754_zero z.
Proof.
  intros Hm He. unfold binary_round_aux.
  pose proof (shr_fexp_pos m e l Hm He) as H1.
  pose proof (shr_fexp_exp m e l) as E1.
  destruct (shr_fexp prec emax m e l) as [mrs' e']. cbn [fst snd] in H1, E1.
  pose proof (shr_fexp_pos _ e' loc_Exact
                (round_nearest_even_pos _ (loc_of_shr_record mrs') H1) E1) as H2.
  destruct (shr_fexp prec emax _ e' loc_Exact) as [mrs'' e'']. cbn [fst] in H2.
  destruct (shr_m mrs''); try lia.
  destruct (e'' <=? emax - prec); discriminate.
Qed.

Lemma binary_round_wf s m e : wf (binary_round prec emax s m e).
Proof.
  unfold binary_round. destruct (shl_align m e _). apply round_aux_wf.
Qed.

Lemma binary_round_nonzero s m e z :
  -1074 <= e -> binary_round prec emax s m e <> S754_zero z.
Proof.
  intros He. unfold binary_round.
  destruct (shl_align_spec m e (fexp prec emax (Zpos (digits2_pos m) + e)))
    as [(_ & Hs & _)|(_ & ->)].
  - destruct (shl_align m e _) as [mz ez]. cbn [snd] in Hs. subst ez.
    apply round_aux_nonzero; [lia|rewrite fexp_53; lia].
  - apply round_aux_nonzero; lia.
Qed.

Lemma mul_wf x y : wf (mul x y).
Proof.
  destruct x as [sx|sx| |sx mx ex], y as [sy|sy| |sy my ey]; cbn; auto.
  apply round_aux_wf.
Qed.

Lemma add_wf x y : wf x -> wf y -> wf (add x y).
Proof.
  destruct x as [sx|sx| |sx mx ex], y as [sy|sy| |sy my ey]; cbn [add SFadd wf]; auto.
  - destruct sx, sy; exact (fun _ _ => I).
  - destruct sx, sy; exact (fun _ _ => I).
  - intros _ _. unfold binary_normalize.
    destruct (_ + _); cbn [wf]; auto using binary_round_wf.
Qed.

Lemma add_neg_zero x y :
  wf x -> wf y -> x <> neg_zero -> add x y <> neg_zero.
Proof.
  unfold neg_zero.
  destruct x as [sx|sx| |sx mx ex], y as [sy|sy| |sy my ey];
    cbn [add SFadd wf]; intros Hx Hy Hn; try discriminate; try assumption.
  - destruct sx, sy; congruence.
  - destruct sx, sy; discriminate.
  - unfold binary_normalize.
    destruct (_ + _); [discriminate| |]; apply binary_round_nonzero; lia.
Qed.

(** *** Integers below 2^53 are computed with exactly *)

Lemma of_int_zero : of_int 0 = zero.
Proof. reflexivity. Qed.

Lemma add_int a b :
  0 <= a -> 0 <= b -> a + b < 2 ^ 53 -> add (of_int a) (of_int b) = of_int (a + b).
Proof.
  intros Ha Hb H.
  destruct a as [|a|a]; [|destruct b as [|b|b]|]; try lia.
  - rewrite of_int_zero, Z.add_0_l. destruct b as [|b|b]; try lia; [reflexivity|].
    rewrite of_int_pos by lia. reflexivity.
  - rewrite Z.add_0_r, of_int_zero, of_int_pos by lia. reflexivity.
  - rewrite !of_int_pos by lia. rewrite <- Pos2Z.inj_add, of_int_pos by lia.
    now apply add_canon.
Qed.

Lemma mul_int a b :
  0 <= a < 2 ^ 53 -> 0 <= b < 2 ^ 53 -> a * b < 2 ^ 53 ->
  mul (of_int a) (of_int b) = of_int (a * b).
Proof.
  intros Ha Hb H.
  destruct a as [|a|a]; [|destruct b as [|b|b]|]; try lia.
  - rewrite of_int_zero, Z.mul_0_l. destruct b as [|b|b]; try lia; [reflexivity|].
    rewrite of_int_pos by lia. reflexivity.
  - rewrite Z.mul_0_r, of_int_zero, of_int_pos by lia. reflexivity.
  - rewrite !of_int_pos by lia. rewrite <- Pos2Z.inj_mul, of_int_pos by lia.
    now apply mul_canon.
Qed.

(** *** Left-to-right sums *)

Lemma sum_rev_fold {A} (g : A -> number) (l : list A) :
  Spec.sum_rev (map g l) = fold_right (fun x s => add s (g x)) zero l.
Proof. induction l as [|x l IH]; cbn; congruence. Qed.

Lemma fold_left_sigma {A} (g : A -> number) (l : list A) :
  fold_left (fun sum x => add sum (g x)) l zero = Spec.sigma (map g l).
Proof.
  unfold Spec.sigma. rewrite <- map_rev, sum_rev_fold.
  symmetry. apply fold_left_rev_right.
Qed.

Lemma sigma_nil : Spec.sigma [] = zero.
Proof. reflexivity. Qed.

Lemma sigma_snoc l x : Spec.sigma (l ++ [x]) = add (Spec.sigma l) x.
Proof. unfold Spec.sigma. now rewrite rev_unit. Qed.

(** *** A running sum that starts from [+0] is never [-0] *)

Lemma clean_zero : clean zero.
Proof. split; [exact I|discriminate]. Qed.

Lemma clean_add x y : clean x -> wf y -> clean (add x y).
Proof.
  intros [Wx Nx] Wy. split; [now apply add_wf|now apply add_neg_zero].
Qed.

Lemma clean_fold {A} (g : A -> number) (l : list A) acc :
  (forall x, wf (g x)) -> clean acc ->
  clean (fold_left (fun sum x => add sum (g x)) l acc).
Proof.
  intros Hg. revert acc. induction l as [|x l IH]; intros acc Hacc; cbn; auto.
  apply IH. now apply clean_add.
Qed.

Lemma is_double_wf x : is_double x -> wf x.
Proof.
  unfold is_double. destruct x as [s|s| |s m e]; cbn; auto.
  unfold bounded, canonical_mantissa. rewrite fexp_53.
  intros H. apply andb_prop in H as [H _]. apply Z.eqb_eq in H. lia.
Qed.

Lemma add_or_zero acc x :
  acc <> neg_zero -> x <> NaN -> add acc (or_zero (JNum x)) = add acc x.
Proof.
  intros Ha Hx. destruct x as [sx|sx| |sx mx ex]; cbn; try reflexivity; [|now destruct Hx].
  destruct sx; [|reflexivity].
  destruct acc as [[]|sa| |sa ma ea]; cbn; try reflexivity.
  now destruct Ha.
Qed.

(** * The order editor: derived totals *)

Section Totals.

Import EditOrder.

Lemma itemsTotal_sigma items :
  itemsTotal items = Spec.sigma (map Spec.line_total items).
Proof. apply (fold_left_sigma Spec.line_total). Qed.

Lemma totalPieces_sigma items :
  totalPieces items = Spec.sigma (map (fun item => Number (v_quantity item)) items).
Proof. apply (fold_left_sigma (fun item => Number (v_quantity item))). Qed.

Lemma itemsTotal_clean items : clean (itemsTotal items).
Proof.
  apply (clean_fold Spec.line_total); [|exact clean_zero].
  intros x. apply mul_wf.
Qed.

Lemma totalPrice_numeric items a b c d :
  Spec.numeric a -> Spec.numeric b -> Spec.numeric c -> Spec.numeric d ->
  totalPrice items [JNum a; JNum b; JNum c; JNum d]
  = add (add (add (add (itemsTotal items) a) b) c) d.
Proof.
  intros [Da Na] [Db Nb] [Dc Nc] [Dd Nd]. unfold totalPrice. cbn [nth].
  pose proof (itemsTotal_clean items) as C0.
  pose proof (clean_add _ a C0 (is_double_wf a Da)) as C1.
  pose proof (clean_add _ b C1 (is_double_wf b Db)) as C2.
  pose proof (clean_add _ c C2 (is_double_wf c Dc)) as C3.
  rewrite (add_or_zero _ a) by (apply C0 || assumption).
  rewrite (add_or_zero _ b) by (apply C1 || assumption).
  rewrite (add_or_zero _ c) by (apply C2 || assumption).
  rewrite (add_or_zero _ d) by (apply C3 || assumption).
  reflexivity.
Qed.

(** C1. For every list of line items, [itemsTotal] is the sum over the
    items of [quantity * unit_price] and [totalPieces] the sum of the
    quantities; for every quadruple of surcharges that are numbers,
    [totalPrice] is [itemsTotal + fabric + tailoring + extra + tax]; and
    for the items [{qty:2, price:10}, {qty:1, price:5}] with surcharges
    3, 2, 0, 1 the controller computes 3 pieces, an items total of 25
    and a total price of 31. *)
Theorem totals_formulas :
  (forall (items : list item_values) (fabric tailoring extra tax : number),
      Spec.numeric fabric -> Spec.numeric tailoring ->
      Spec.numeric extra -> Spec.numeric tax ->
      itemsTotal items = Spec.sigma (map Spec.line_total items) /\
      totalPieces items = Spec.sigma (map (fun item => Number (v_quantity item)) items) /\
      totalPrice items [JNum fabric; JNum tailoring; JNum extra; JNum tax]
      = add (add (add (add (itemsTotal items) fabric) tailoring) extra) tax) /\
  (let items := [Spec.line 2 10; Spec.line 1 5] in
   let prices := [JNum (of_int 3); JNum (of_int 2); JNum (of_int 0); JNum (of_int 1)] in
   totalPieces items = of_int 3 /\
   itemsTotal items = of_int 25 /\
   totalPrice items prices = of_int 31).
Proof.
  split.
  - intros items a b c d Ha Hb Hc Hd.
    split; [apply itemsTotal_sigma|].
    split; [apply totalPieces_sigma|].
    now apply totalPrice_numeric.
  - cbv zeta. repeat split; vm_compute; reflexivity.
Qed.

Lemma totals_formulas_witness :
  Spec.numeric (of_int 3) /\ Spec.numeric (of_int 2) /\
  Spec.numeric (of_int 0) /\ Spec.numeric (of_int 1) /\
  totalPrice [Spec.line 2 10; Spec.line 1 5]
    [JNum (of_int 3); JNum (of_int 2); JNum (of_int 0); JNum (of_int 1)]
  = add (add (add (add (itemsTotal [Spec.line 2 10; Spec.line 1 5]) (of_int 3))
                  (of_int 2)) (of_int 0)) (of_int 1).
Proof.
  assert (N3 : Spec.numeric (of_int 3)) by (split; [reflexivity|discriminate]).
  assert (N2 : Spec.numeric (of_int 2)) by (split; [reflexivity|discriminate]).
  assert (N0 : Spec.numeric (of_int 0)) by (split; [reflexivity|discriminate]).
  assert (N1 : Spec.numeric (of_int 1)) by (split; [reflexivity|discriminate]).
  repeat (split; [assumption|]).
  exact (proj2 (proj2 (proj1 totals_formulas [Spec.line 2 10; Spec.line 1 5]
                         (of_int 3) (of_int 2) (of_int 0) (of_int 1) N3 N2 N0 N1))).
Defined.

(** *** Order of the items *)

Lemma total_of_nonneg items amounts :
  Forall2 Spec.whole_item items amounts ->
  0 <= Spec.total_of amounts /\ 0 <= Spec.pieces_of amounts.
Proof.
  unfold Spec.total_of, Spec.pieces_of.
  induction 1 as [|item qp items amounts (Hq & Hp & _) _ [IH1 IH2]];
    cbn [fold_right]; [lia|].
  split; [nia|lia].
Qed.

Lemma itemsTotal_from items amounts acc :
  Forall2 Spec.whole_item items amounts ->
  0 <= acc -> acc + Spec.total_of amounts < 2 ^ 53 ->
  fold_left (fun sum item => add sum (Spec.line_total item)) items (of_int acc)
  = of_int (acc + Spec.total_of amounts).
Proof.
  intros H. revert acc.
  induction H as [|item qp items amounts (Hq & Hp & Eq & Ep) Hrest IH];
    intros acc Ha Hb; cbn [fold_left Spec.total_of fold_right] in *.
  - now rewrite Z.add_0_r.
  - destruct (total_of_nonneg _ _ Hrest) as [Hn _]. fold (Spec.total_of amounts) in *.
    assert (0 <= fst qp * snd qp) by nia.
    unfold Spec.line_total at 2. rewrite Eq, Ep. cbn [Number].
    rewrite mul_int, add_int by lia.
    rewrite IH by lia. f_equal. lia.
Qed.

Lemma totalPieces_from items amounts acc :
  Forall2 Spec.whole_item items amounts ->
  0 <= acc -> acc + Spec.pieces_of amounts < 2 ^ 53 ->
  fold_left (fun sum item => add sum (Number (v_quantity item))) items (of_int acc)
  = of_int (acc + Spec.pieces_of amounts).
Proof.
  intros H. revert acc.
  induction H as [|item qp items amounts (Hq & Hp & Eq & Ep) Hrest IH];
    intros acc Ha Hb; cbn [fold_left Spec.pieces_of fold_right] in *.
  - now rewrite Z.add_0_r.
  - destruct (total_of_nonneg _ _ Hrest) as [_ Hn]. fold (Spec.pieces_of amounts) in *.
    rewrite Eq. cbn [Number]. rewrite add_int by lia.
    rewrite IH by lia. f_equal. lia.
Qed.

Lemma itemsTotal_whole items amounts :
  Forall2 Spec.whole_item items amounts -> Spec.total_of amounts < 2 ^ 53 ->
  itemsTotal items = of_int (Spec.total_of amounts).
Proof.
  intros H B.
  exact (itemsTotal_from items amounts 0 H ltac:(lia) ltac:(lia)).
Qed.

Lemma totalPieces_whole items amounts :
  Forall2 Spec.whole_item items amounts -> Spec.pieces_of amounts < 2 ^ 53 ->
  totalPieces items = of_int (Spec.pieces_of amounts).
Proof.
  intros H B.
  exact (totalPieces_from items amounts 0 H ltac:(lia) ltac:(lia)).
Qed.

Lemma amounts_perm a b :
  Permutation a b ->
  Spec.total_of a = Spec.total_of b /\ Spec.pieces_of a = Spec.pieces_of b.
Proof.
  unfold Spec.total_of, Spec.pieces_of.
  induction 1 as [|x a b _ [IH1 IH2]|x y a|a b c _ [IH1 IH2] _ [IH3 IH4]];
    cbn [fold_right]; split; lia.
Qed.

(** C9, as stated, fails: with quantity 1 and unit prices 0.1, 0.2, 0.3
    (the doubles nearest to 1/10, 2/10 and 3/10) the items total is
    5404319552844596 * 2^-53 = 0.6000000000000001, and
    5404319552844595 * 2^-53 = 0.6 when the same items are listed in
    reverse. *)
Lemma totals_depend_on_item_order :
  let items := [ Spec.line_of (of_int 1) (dec 1 10);
                 Spec.line_of (of_int 1) (dec 2 10);
                 Spec.line_of (of_int 1) (dec 3 10) ] in
  (is_double (dec 1 10) /\ is_double (dec 2 10) /\ is_double (dec 3 10)) /\
  Permutation items (rev items) /\
  itemsTotal items = S754_finite false 5404319552844596 (-53) /\
  itemsTotal (rev items) = S754_finite false 5404319552844595 (-53) /\
  itemsTotal items <> itemsTotal (rev items) /\
  totalPrice items [] <> totalPrice (rev items) [].
Proof.
  cbv zeta. split; [repeat split|].
  split; [apply Permutation_rev|].
  split; [vm_compute; reflexivity|].
  split; [vm_compute; reflexivity|].
  split; vm_compute; discriminate.
Qed.

(** C9, amended. When the quantities and unit prices are non-negative
    integers below 2^53 and the exact sums of the quantities and of the
    line totals are below 2^53, every permutation of the item list
    (surcharge fields held fixed) yields the same [itemsTotal],
    [totalPieces] and [totalPrice]. *)
Theorem totals_permutation_whole :
  forall (items items' : list item_values) (amounts : list (Z * Z))
         (prices : list value),
    Forall2 Spec.whole_item items amounts ->
    Spec.pieces_of amounts < 2 ^ 53 ->
    Spec.total_of amounts < 2 ^ 53 ->
    Permutation items items' ->
    itemsTotal items' = itemsTotal items /\
    totalPieces items' = totalPieces items /\
    totalPrice items' prices = totalPrice items prices.
Proof.
  intros items items' amounts prices H Bp Bt P.
  destruct (Permutation_Forall2 P H) as (amounts' & P' & H').
  destruct (amounts_perm _ _ P') as [Et Ep].
  assert (E : itemsTotal items' = itemsTotal items).
  { rewrite (itemsTotal_whole _ _ H) by lia.
    rewrite (itemsTotal_whole _ _ H') by lia. now rewrite Et. }
  split; [exact E|]. split.
  - rewrite (totalPieces_whole _ _ H) by lia.
    rewrite (totalPieces_whole _ _ H') by lia. now rewrite Ep.
  - unfold totalPrice. now rewrite E.
Qed.

Lemma totals_permutation_whole_witness :
  let items := [Spec.line 2 10; Spec.line 1 5] in
  let items' := [Spec.line 1 5; Spec.line 2 10] in
  itemsTotal items' = itemsTotal items /\
  totalPieces items' = totalPieces items /\
  totalPrice items' [JNum (of_int 3)] = totalPrice items [JNum (of_int 3)].
Proof.
  cbv zeta.
  apply (totals_permutation_whole
           [Spec.line 2 10; Spec.line 1 5] [Spec.line 1 5; Spec.line 2 10]
           [(2, 10); (1, 5)] [JNum (of_int 3)]).
  - repeat constructor; cbn; lia.
  - reflexivity.
  - reflexivity.
  - apply perm_swap.
Defined.

End Totals.

(** * The dashboard: statistics *)

Section Statistics.

Import Dashboard.

Lemma count_status_filter k rows :
  length (List.filter (fun order => bool_decide (status order = Some k)) rows)
  = Spec.count_status k rows.
Proof.
  induction rows as [|r rows IH]; cbn; [reflexivity|].
  destruct (bool_decide (status r = Some k)); cbn; now rewrite IH.
Qed.

Lemma count_status_disjoint rows :
  (Spec.count_status "pending" rows + Spec.count_status "completed" rows
   <= length rows)%nat.
Proof.
  induction rows as [|r rows IH]; cbn; [lia|].
  destruct (status r) as [k|].
  - destruct (decide (k = "pending")) as [->|Hp].
    + rewrite bool_decide_eq_true_2, bool_decide_eq_false_2 by congruence. lia.
    + rewrite (bool_decide_eq_false_2 (Some k = Some "pending")) by congruence.
      destruct (bool_decide (Some k = Some "completed")); lia.
  - rewrite !bool_decide_eq_false_2 by congruence. lia.
Qed.

Lemma fetchStats_stats t fails :
  stats (snd (fetchStats (mounted t fails)))
  = if fails SelectOrderTotals then initial_stats
    else computed
           (map (fun r => {| total_price := o_total_price r; status := o_status r |})
                (orders t))
           (if fails SelectCustomerIds then None else Some (customers t)).
Proof.
  unfold fetchStats, catch, bind, request, request_on, mounted. cbn.
  destruct (fails SelectOrderTotals) eqn:E1; cbn; rewrite ?E1;
    destruct (fails SelectCustomerIds) eqn:E2; cbn; rewrite ?E1, ?E2; reflexivity.
Qed.

(** C10. For every fetched set of order rows the statistics are:
    [totalOrders] the number of rows, [totalRevenue] the sum of the rows'
    [total_price], [pendingOrders] and [completedOrders] the numbers of
    rows whose status is ['pending'] and ['completed']; hence
    [pendingOrders + completedOrders <= totalOrders].  The dashboard
    stores exactly these statistics whenever the orders request
    succeeds. *)
Theorem dashboard_statistics :
  (forall (rows : list totals_row) (customers : option (list string)),
      let s := computed rows customers in
      totalOrders s = length rows /\
      totalRevenue s = Spec.sigma (map total_price rows) /\
      pendingOrders s = Spec.count_status "pending" rows /\
      completedOrders s = Spec.count_status "completed" rows /\
      (pendingOrders s + completedOrders s <= totalOrders s)%nat) /\
  (forall (t : tables) (fails : call -> bool),
      stats (snd (fetchStats (mounted t fails)))
      = if fails SelectOrderTotals then initial_stats
        else computed
               (map (fun r => {| total_price := o_total_price r; status := o_status r |})
                    (orders t))
               (if fails SelectCustomerIds then None else Some (customers t))).
Proof.
  split; [|exact fetchStats_stats].
  intros rows customers. cbv zeta. cbn [computed totalOrders totalRevenue
    pendingOrders completedOrders].
  rewrite !count_status_filter.
  repeat split; try reflexivity.
  - apply (fold_left_sigma (fun order => Number (JNum (total_price order)))).
  - apply count_status_disjoint.
Qed.

End Statistics.

(** * The order list: status badge *)

Section StatusBadge.

Import Orders.

(** The three defined keys. *)
Lemma getStatusBadge_defined :
  getStatusBadge "pending"
  = {| variant := PStr "outline"; children := PStr "قيد التنفيذ" |} /\
  getStatusBadge "completed"
  = {| variant := PStr "default"; children := PStr "مكتمل" |} /\
  getStatusBadge "cancelled"
  = {| variant := PStr "destructive"; children := PStr "ملغي" |}.
Proof. repeat split; vm_compute; reflexivity. Qed.

Lemma own_key_absent (o : gmap string string) (x y z status : string) :
  o = {[ "pending" := x; "completed" := y; "cancelled" := z ]} ->
  status <> "pending" -> status <> "completed" -> status <> "cancelled" ->
  o !! status = None.
Proof.
  intros -> H1 H2 H3.
  rewrite !lookup_insert_ne, lookup_singleton_ne by congruence. reflexivity.
Qed.

(** A status that is none of the three keys, and does not name a property
    of [Object.prototype], gets the neutral variant and is its own label. *)
Lemma getStatusBadge_fallback (status : string) :
  status <> "pending" -> status <> "completed" -> status <> "cancelled" ->
  status ∉ object_prototype ->
  getStatusBadge status
  = {| variant := PStr "secondary"; children := PStr status |}.
Proof.
  intros H1 H2 H3 H4. unfold getStatusBadge, get.
  rewrite (own_key_absent variants _ _ _ status eq_refl H1 H2 H3).
  rewrite (own_key_absent labels _ _ _ status eq_refl H1 H2 H3).
  rewrite bool_decide_eq_false_2 by assumption. reflexivity.
Qed.

(** C7: the status ["constructor"] is outside the three keys, yet the
    lookup finds the property [Object.prototype.constructor], which is
    truthy: the badge gets that inherited value as variant and as label,
    not the neutral variant and the fallback label. *)
Theorem getStatusBadge_inherited_key :
  getStatusBadge "constructor"
  = {| variant := PInherited "constructor"; children := PInherited "constructor" |} /\
  variant (getStatusBadge "constructor") <> PStr "secondary" /\
  children (getStatusBadge "constructor") <> PStr "constructor".
Proof. split; [reflexivity|]. split; vm_compute; discriminate. Qed.

End StatusBadge.

(** * The order editor: submission *)

Section Submission.

Import EditOrder.

Lemma orderItems_rows id items :
  Forall2 (fun item row =>
             n_order_id row = id /\
             n_product_name row = product_name item /\
             n_quantity row = quantity item /\
             n_unit_price row = unit_price item /\
             n_total_price row = mul (quantity item) (unit_price item))
          items (map (orderItem id) items).
Proof. induction items; cbn; constructor; auto. Qed.

(** The world a submission leaves behind, by the step that fails. *)
Lemma onSubmit_world id data s :
  let w := st_world s in
  let patch := header_patch s data in
  let rows := map (orderItem id) (order_items_ data) in
  let c1 := UpdateOrder id patch in
  let c2 := DeleteItems id in
  let c3 := InsertItems rows in
  let t1 := update_order id patch (w_tables w) in
  let t2 := delete_items id t1 in
  let t3 := insert_items rows t2 in
  st_world (snd (onSubmit id data s))
  = if w_fails w c1 then
      {| w_tables := w_tables w; w_fails := w_fails w;
         w_calls := w_calls w ++ [c1];
         w_toasts := w_toasts w ++ [update_failed];
         w_route := w_route w;
         w_console := w_console w ++ [GatewayError c1] |}
    else if w_fails w c2 then
      {| w_tables := t1; w_fails := w_fails w;
         w_calls := w_calls w ++ [c1; c2];
         w_toasts := w_toasts w ++ [update_failed];
         w_route := w_route w;
         w_console := w_console w ++ [GatewayError c2] |}
    else if w_fails w c3 then
      {| w_tables := t2; w_fails := w_fails w;
         w_calls := w_calls w ++ [c1; c2; c3];
         w_toasts := w_toasts w ++ [update_failed];
         w_route := w_route w;
         w_console := w_console w ++ [GatewayError c3] |}
    else
      {| w_tables := t3; w_fails := w_fails w;
         w_calls := w_calls w ++ [c1; c2; c3];
         w_toasts := w_toasts w ++ [update_succeeded];
         w_route := Some "/dashboard/orders";
         w_console := w_console w |}.
Proof.
  cbv zeta. destruct s as [w f e l il]. cbn [st_world].
  unfold onSubmit, finally, catch, bind, setLoading, modify, gets, request,
    request_on, throw_if, toast_, navigate, console_error, on_world, ret, throw.
  cbn.
  destruct (w_fails w (UpdateOrder id _)) eqn:E1; cbn; [reflexivity|].
  destruct (w_fails w (DeleteItems id)) eqn:E2; cbn.
  { now rewrite <- app_assoc. }
  destruct (w_fails w (InsertItems _)) eqn:E3; cbn;
    now rewrite <- !app_assoc.
Qed.

(** C2. A submission issues the header update, then the deletion of the
    order's item rows, then the insertion of one row per line item whose
    [total_price] is [quantity * unit_price]; a step that fails stops the
    sequence, raises the fixed failure notification, and leaves what the
    earlier steps wrote in place. *)
Theorem submit_protocol :
  forall (id : string) (data : OrderFormData) (s : state),
    let w := st_world s in
    let patch := header_patch s data in
    let rows := map (orderItem id) (order_items_ data) in
    let c1 := UpdateOrder id patch in
    let c2 := DeleteItems id in
    let c3 := InsertItems rows in
    let w' := st_world (snd (onSubmit id data s)) in
    Forall2 (fun item row =>
               n_order_id row = id /\
               n_product_name row = product_name item /\
               n_quantity row = quantity item /\
               n_unit_price row = unit_price item /\
               n_total_price row = mul (quantity item) (unit_price item))
            (order_items_ data) rows /\
    t_variant update_failed = Destructive /\
    if w_fails w c1 then
      w_calls w' = w_calls w ++ [c1] /\
      w_tables w' = w_tables w /\
      w_toasts w' = w_toasts w ++ [update_failed]
    else if w_fails w c2 then
      w_calls w' = w_calls w ++ [c1; c2] /\
      w_tables w' = update_order id patch (w_tables w) /\
      w_toasts w' = w_toasts w ++ [update_failed]
    else if w_fails w c3 then
      w_calls w' = w_calls w ++ [c1; c2; c3] /\
      w_tables w' = delete_items id (update_order id patch (w_tables w)) /\
      w_toasts w' = w_toasts w ++ [update_failed]
    else
      w_calls w' = w_calls w ++ [c1; c2; c3] /\
      w_tables w'
      = insert_items rows (delete_items id (update_order id patch (w_tables w))) /\
      w_toasts w' = w_toasts w ++ [update_succeeded].
Proof.
  intros id data s. cbv zeta. rewrite onSubmit_world. cbv zeta.
  split; [apply orderItems_rows|]. split; [reflexivity|].
  destruct (w_fails _ (UpdateOrder _ _)); [now repeat split|].
  destruct (w_fails _ (DeleteItems _)); [now repeat split|].
  destruct (w_fails _ (InsertItems _)); now repeat split.
Qed.

(** C3. When the header update succeeds and the deletion of the item rows
    fails, every order row with the submitted identifier holds the
    submitted header values, and the item rows are exactly those from
    before the edit. *)
Theorem delete_failure_keeps_items :
  forall (id : string) (data : OrderFormData) (s : state),
    w_fails (st_world s) (UpdateOrder id (header_patch s data)) = false ->
    w_fails (st_world s) (DeleteItems id) = true ->
    let t := w_tables (st_world s) in
    let t' := w_tables (st_world (snd (onSubmit id data s))) in
    order_items t' = order_items t /\
    orders t'
    = map (fun r => if bool_decide (o_id r = id)
                    then patch_order (header_patch s data) r else r)
          (orders t) /\
    (forall r, In r (orders t') -> o_id r = id ->
       o_customer_name r = customer_name data /\
       o_customer_phone r = customer_phone data /\
       o_status r = Some (status_key (status_ data)) /\
       o_total_pieces r = Some (totalPieces (watchedItems s)) /\
       o_total_price r = totalPrice (watchedItems s) (watchedPrices s) /\
       o_fabric_price r = Some (fabric_price data) /\
       o_tailoring_price r = Some (tailoring_price data) /\
       o_extra_costs r = Some (extra_costs data) /\
       o_tax_amount r = Some (tax_amount data)).
Proof.
  intros id data s H1 H2. cbv zeta. rewrite onSubmit_world. cbv zeta.
  rewrite H1, H2. cbn [w_tables update_order order_items orders].
  split; [reflexivity|]. split; [reflexivity|].
  intros r Hin Hid. apply in_map_iff in Hin as (r0 & <- & _).
  destruct (bool_decide_reflect (o_id r0 = id)) as [E|N].
  - cbn. repeat split.
  - now destruct N.
Qed.

Lemma delete_failure_keeps_items_witness :
  let s := mounted Example.db Example.delete_fails in
  let t' := w_tables (st_world (snd (onSubmit "o1" Example.data s))) in
  order_items t' = [Example.item] /\
  map o_customer_name (orders t') = ["Omar"].
Proof.
  cbv zeta.
  pose proof (delete_failure_keeps_items "o1" Example.data
                (mounted Example.db Example.delete_fails) eq_refl eq_refl) as H.
  cbv zeta in H. destruct H as (Hitems & Horders & _).
  rewrite Hitems, Horders. split; reflexivity.
Defined.

End Submission.

(** * The order editor: validation *)

Section Validation.

Import EditOrder.

Lemma valid_pmap {A B} (f : A -> B) r : valid (pmap f r) <-> valid r.
Proof.
  unfold valid. destruct r as [a|i]; cbn; split; intros [x H]; eauto; discriminate.
Qed.

Lemma valid_both {A B} (ra : parsed A) (rb : parsed B) :
  valid (both ra rb) <-> valid ra /\ valid rb.
Proof.
  unfold valid. destruct ra as [a|i], rb as [b|j]; cbn; split.
  all: try (intros [x H]; discriminate).
  all: try (intros [[x H] [y H']]; discriminate).
  - eauto.
  - eauto.
Qed.

Lemma valid_under {A} s (r : parsed A) : valid (under s r) <-> valid r.
Proof.
  unfold valid. destruct r as [a|i]; cbn; split; intros [x H]; eauto; discriminate.
Qed.

Lemma valid_field {A} k (r : parsed A) : valid (field k r) <-> valid r.
Proof. apply valid_under. Qed.

Lemma valid_string_min1 msg s : valid (string_min1 msg s) <-> s <> "".
Proof.
  unfold valid, string_min1, fail. destruct (bool_decide_reflect (s = "")) as [E|N]; split.
  - intros [x H]; discriminate.
  - intros H. now destruct H.
  - auto.
  - eauto.
Qed.

Lemma valid_string_optional s : valid (string_optional s) <-> True.
Proof. unfold valid, string_optional. split; eauto. Qed.

Lemma SFcompare_none x y : SFcompare x y = None -> x = NaN \/ y = NaN.
Proof.
  destruct x as [sx|sx| |sx mx ex], y as [sy|sy| |sy my ey]; cbn;
    try discriminate; auto.
Qed.

Lemma ge_spec n m :
  m <> NaN -> ge n m = true <-> n <> NaN /\ lt n m = false.
Proof.
  intros Hm. unfold ge, lt, SFltb.
  destruct (SFcompare n m) as [[ | | ]|] eqn:E; split; try tauto;
    try discriminate; try (intros [_ H]; discriminate).
  - intros _. split; [|reflexivity]. intros ->. discriminate.
  - intros _. split; [|reflexivity]. intros ->. discriminate.
  - intros [Hn _]. destruct (SFcompare_none _ _ E); tauto.
Qed.

Lemma valid_number_min v m msg :
  m <> NaN ->
  valid (andThen (number_ v) (min m msg)) <-> exists n, v = JNum n /\ ge n m = true.
Proof.
  intros Hm. unfold valid, andThen, number_, min, fail. split.
  - intros [a H]. destruct v as [| |n]; try discriminate.
    exists n. split; [reflexivity|]. apply ge_spec; [assumption|].
    destruct (lt n m) eqn:L.
    + destruct n; rewrite ?L in H; discriminate.
    + split; [|reflexivity]. intros ->. discriminate.
  - intros (n & -> & H). apply ge_spec in H as [Hn Hlt]; [|assumption].
    destruct n; try (now destruct Hn); rewrite Hlt; eauto.
Qed.

Lemma valid_optional_number v :
  valid (optional number_ v) <-> v = JUndefined \/ exists n, v = JNum n /\ n <> NaN.
Proof.
  unfold valid, optional, number_, pmap, fail. split.
  - intros [a H]. destruct v as [| |n]; [now left|discriminate|].
    right. exists n. split; [reflexivity|]. destruct n; try discriminate.
  - intros [->|(n & -> & Hn)]; [eauto|].
    destruct n; try (now destruct Hn); eauto.
Qed.

Lemma valid_array_from {A B} (p : A -> parsed B) l i :
  valid (array_from p i l) <-> Forall (fun x => valid (p x)) l.
Proof.
  revert i. induction l as [|x l IH]; intros i; cbn [array_from].
  - split; [constructor|]. intros _. now exists [].
  - rewrite valid_pmap, valid_both, valid_under, IH. split.
    + intros [H1 H2]. now constructor.
    + intros H. inversion H; subst. tauto.
Qed.

Lemma valid_status_enum s :
  valid (status_enum s) <-> exists st, s = Some (status_key st).
Proof.
  unfold valid, status_enum, fail.
  destruct (bool_decide_reflect (s = Some "pending")) as [->|N1].
  { split; [intros _; now exists pending|eauto]. }
  destruct (bool_decide_reflect (s = Some "completed")) as [->|N2].
  { split; [intros _; now exists completed|eauto]. }
  destruct (bool_decide_reflect (s = Some "cancelled")) as [->|N3].
  { split; [intros _; now exists cancelled|eauto]. }
  split; [intros [a H]; discriminate|].
  intros [[ | | ] ->]; cbn in *; congruence.
Qed.

Lemma valid_surcharge v : valid (surcharge v) <-> Spec.surcharge_ok v.
Proof.
  unfold surcharge, default, Spec.surcharge_ok. destruct v as [| |n].
  - split; [now left|]. intros _. now exists (of_int 0).
  - rewrite valid_number_min by discriminate.
    split; [intros (n & H & _); discriminate|].
    intros [H|(x & H & _)]; discriminate.
  - rewrite valid_number_min by discriminate. split; [now right|].
    intros [H|H]; [discriminate|assumption].
Qed.

Lemma itemSchema_valid item : valid (itemSchema item) <-> Spec.item_ok item.
Proof.
  unfold itemSchema, Spec.item_ok.
  rewrite valid_pmap, !valid_both, !valid_field, !valid_string_optional,
    valid_string_min1, !valid_number_min, valid_optional_number by discriminate.
  tauto.
Qed.

Lemma orderSchema_valid form :
  valid (orderSchema form)
  <-> Spec.header_ok form /\ Forall Spec.item_ok (f_order_items form).
Proof.
  unfold orderSchema, Spec.header_ok, array.
  rewrite valid_pmap, !valid_both, !valid_field, !valid_string_optional,
    !valid_string_min1, valid_status_enum, !valid_surcharge, valid_array_from.
  rewrite (Forall_iff _ (f_order_items form) _ itemSchema_valid).
  tauto.
Qed.

(** *** Rules of the schema and of the item list *)

Lemma remove_keeps_one index fields :
  (1 < length fields)%nat -> remove index fields <> [].
Proof.
  intros H E. apply (f_equal (@length _)) in E.
  unfold remove in E. rewrite length_app, length_firstn, length_skipn in E.
  cbn in E. lia.
Qed.

(** C5, as stated, fails: a form with a valid header and no line item
    passes validation. *)
Lemma validation_accepts_no_items :
  f_order_items Example.form_without_items = [] /\
  exists data, orderSchema Example.form_without_items = Valid data /\
               order_items_ data = [].
Proof. split; [reflexivity|]. eexists. split; vm_compute; reflexivity. Qed.

(** C5, amended. Validation puts no lower bound on the number of line
    items: a form is accepted exactly when its header is valid and every
    line item has a non-empty product name, a quantity >= 1 and a unit
    price >= 0; meters, model and size may be left out.  Only the item
    list's remove control, rendered while more than one item is listed,
    keeps a non-empty list from becoming empty. *)
Theorem validation_rules :
  (forall form,
      valid (orderSchema form)
      <-> Spec.header_ok form /\ Forall Spec.item_ok (f_order_items form)) /\
  valid (orderSchema Example.form_without_items) /\
  (forall item, valid (itemSchema item) <-> Spec.item_ok item) /\
  (forall item, valid (itemSchema item) ->
                valid (itemSchema (Spec.without_optionals item))) /\
  (forall fields, remove_shown fields = true <-> (1 < length fields)%nat) /\
  (forall index fields, fields <> [] -> click_remove index fields <> []).
Proof.
  split; [exact orderSchema_valid|].
  split; [eexists; vm_compute; reflexivity|].
  split; [exact itemSchema_valid|].
  split; [|split].
  - intros item. rewrite !itemSchema_valid. unfold Spec.item_ok. cbn. tauto.
  - intros fields. unfold remove_shown. apply Nat.ltb_lt.
  - intros index fields H. unfold click_remove, remove_shown.
    destruct (Nat.ltb_spec 1 (length fields)); [now apply remove_keeps_one|assumption].
Qed.

Lemma validation_rules_witness :
  valid (itemSchema Example.named_line) /\ Spec.item_ok Example.named_line.
Proof.
  assert (V : valid (itemSchema Example.named_line))
    by (eexists; vm_compute; reflexivity).
  split; [exact V|].
  exact (proj1 (proj1 (proj2 (proj2 validation_rules)) Example.named_line) V).
Defined.

(** *** Local rejection *)

Lemma orderSchema_empty_name form :
  f_customer_name form = "" ->
  exists rest,
    orderSchema form
    = Invalid ({| path := [Key "customer_name"];
                  message := Some customer_name_required |} :: rest).
Proof.
  intros H. unfold orderSchema. rewrite H.
  unfold string_min1 at 1. rewrite bool_decide_eq_true_2 by reflexivity.
  cbn [field under fail map path message].
  destruct (both (field "customer_phone" _) _) as [a|j]; cbn; eauto.
Qed.

(** C8. Submitting with an empty customer name is rejected by the
    schema: no request is issued (the outside world is untouched) and
    the form reports the required-name message at the customer-name
    field. *)
Theorem empty_customer_name_rejected :
  forall (id : string) (s : state),
    f_customer_name (st_form s) = "" ->
    let s' := snd (handleSubmit (onSubmit id) s) in
    st_world s' = st_world s /\
    w_calls (st_world s') = w_calls (st_world s) /\
    w_tables (st_world s') = w_tables (st_world s) /\
    In {| path := [Key "customer_name"]; message := Some customer_name_required |}
       (st_errors s').
Proof.
  intros id s H. cbv zeta.
  destruct (orderSchema_empty_name _ H) as [rest E].
  unfold handleSubmit, bind, gets. cbn. rewrite E. cbn.
  repeat split. now left.
Qed.

Lemma empty_customer_name_rejected_witness :
  let s := mounted Example.db Example.no_faults in
  let s' := snd (handleSubmit (onSubmit "o1") s) in
  st_world s' = st_world s /\
  w_calls (st_world s') = [] /\
  w_tables (st_world s') = Example.db /\
  In {| path := [Key "customer_name"]; message := Some customer_name_required |}
     (st_errors s').
Proof.
  cbv zeta.
  exact (empty_customer_name_rejected "o1"
           (mounted Example.db Example.no_faults) eq_refl).
Defined.

End Validation.

(** * The order editor: loading an order *)

Section Loading.

Import EditOrder.

Lemma or_zero_blank (o : option number) :
  Spec.blank o -> or_zero (JNum (Number (of_nullable o))) = zero.
Proof. intros [->| ->]; reflexivity. Qed.

Lemma fetchOrder_loaded id t fails orderData :
  fails (SelectOrder id) = false ->
  fails (SelectItems id) = false ->
  select_order id t = Some orderData ->
  snd (fetchOrder id (mounted t fails))
  = {| st_world := {| w_tables := t; w_fails := fails;
                      w_calls := [SelectOrder id; SelectItems id];
                      w_toasts := []; w_route := None; w_console := [] |};
       st_form := form_of_rows orderData (select_items id t);
       st_errors := []; st_loading := false; st_initialLoading := false |}.
Proof.
  intros H1 H2 H3.
  unfold fetchOrder, finally, catch, bind, request, request_on, mounted.
  cbn. rewrite H1. cbn. rewrite H3. cbn. rewrite H2. cbn. reflexivity.
Qed.

(** Whatever happens, loading leaves the tables alone, and the form holds
    either its defaults or the values built from the fetched rows. *)
Lemma fetchOrder_cases id t fails :
  let s := snd (fetchOrder id (mounted t fails)) in
  w_tables (st_world s) = t /\
  w_fails (st_world s) = fails /\
  (st_form s = defaultValues \/
   exists orderData,
     select_order id t = Some orderData /\
     st_form s = form_of_rows orderData (select_items id t)).
Proof.
  cbv zeta.
  destruct (fails (SelectOrder id)) eqn:H1;
    [|destruct (select_order id t) as [orderData|] eqn:H3;
      [destruct (fails (SelectItems id)) eqn:H2|]].
  3:{ rewrite (fetchOrder_loaded id t fails orderData) by assumption.
      cbn. repeat split. right. eauto. }
  all: unfold fetchOrder, finally, catch, bind, request, request_on, mounted;
    cbn; rewrite H1; cbn; rewrite ?H3; cbn; rewrite ?H2; cbn; auto.
Qed.

(** C6, as stated, fails for the unit price: an item row whose
    [unit_price] is not a number is seeded as NaN, not as zero. *)
Lemma unit_price_not_defaulted :
  let form := st_form (snd (fetchOrder "o1"
                              (mounted Example.unpriced_db Example.no_faults))) in
  map v_unit_price (f_order_items form) = [JNum NaN] /\
  JNum NaN <> JNum zero.
Proof. cbv zeta. split; [vm_compute; reflexivity|discriminate]. Qed.

(** C6, amended. When the form is initialised from an existing order, the
    header's [fabric_price], [tailoring_price], [extra_costs] and
    [tax_amount] and each item's [meters] are seeded as zero when they
    are missing or not a number; each item's [unit_price] is seeded by
    numeric coercion alone, so it is taken as it is fetched. *)
Theorem initial_values_coerced :
  forall (id : string) (t : tables) (fails : call -> bool) (orderData : order_row),
    fails (SelectOrder id) = false ->
    fails (SelectItems id) = false ->
    select_order id t = Some orderData ->
    let form := st_form (snd (fetchOrder id (mounted t fails))) in
    (Spec.blank (o_fabric_price orderData) -> f_fabric_price form = JNum zero) /\
    (Spec.blank (o_tailoring_price orderData) -> f_tailoring_price form = JNum zero) /\
    (Spec.blank (o_extra_costs orderData) -> f_extra_costs form = JNum zero) /\
    (Spec.blank (o_tax_amount orderData) -> f_tax_amount form = JNum zero) /\
    Forall2 (fun row item =>
               (Spec.blank (i_meters row) -> v_meters item = JNum zero) /\
               v_unit_price item = JNum (i_unit_price row))
            (select_items id t) (f_order_items form).
Proof.
  intros id t fails orderData H1 H2 H3. cbv zeta.
  rewrite (fetchOrder_loaded id t fails orderData H1 H2 H3).
  cbn [st_form form_of_rows f_fabric_price f_tailoring_price f_extra_costs
         f_tax_amount f_order_items].
  repeat split; try (intros B; f_equal; now apply or_zero_blank).
  induction (select_items id t) as [|row rows IH]; cbn; constructor; auto.
  split; [|reflexivity]. intros B. cbn. f_equal. now apply or_zero_blank.
Qed.

Lemma initial_values_coerced_witness :
  let form := st_form (snd (fetchOrder "o1" (mounted Example.db Example.no_faults))) in
  f_fabric_price form = JNum zero /\
  map v_meters (f_order_items form) = [JNum zero] /\
  map v_unit_price (f_order_items form) = [JNum (of_int 10)].
Proof.
  cbv zeta.
  pose proof (initial_values_coerced "o1" Example.db Example.no_faults Example.order
                eq_refl eq_refl eq_refl) as H.
  cbv zeta in H. destruct H as (Hf & _ & _ & _ & _).
  split; [apply Hf; now left|]. split; reflexivity.
Defined.

End Loading.

(** * The order editor: saving an order that was not changed *)

Section Resubmission.

Import EditOrder.

Lemma pmap_inv {A B} (f : A -> B) r b :
  pmap f r = Valid b -> exists a, r = Valid a /\ f a = b.
Proof. destruct r as [a|i]; cbn; intros H; [|discriminate]. injection H; eauto. Qed.

Lemma both_inv {A B} (ra : parsed A) (rb : parsed B) p :
  both ra rb = Valid p -> ra = Valid (fst p) /\ rb = Valid (snd p).
Proof.
  destruct ra as [a|i], rb as [b|j]; cbn; intros H; try discriminate.
  injection H as <-. auto.
Qed.

Lemma under_inv {A} s (r : parsed A) a : under s r = Valid a -> r = Valid a.
Proof. destruct r; cbn; [auto|discriminate]. Qed.

Lemma string_min1_inv msg s a : string_min1 msg s = Valid a -> a = s.
Proof.
  unfold string_min1, fail. destruct (bool_decide (s = "")); [discriminate|].
  intros H. now injection H.
Qed.

Lemma number_min_inv v m msg n :
  andThen (number_ v) (min m msg) = Valid n -> v = JNum n.
Proof.
  unfold andThen, number_, min, fail.
  destruct v as [| |[s|s| |s mm e]]; try discriminate;
    destruct (lt _ m); try discriminate; intros H; now injection H as <-.
Qed.

Lemma array_from_inv {A B} (p : A -> parsed B) l i ds :
  array_from p i l = Valid ds -> Forall2 (fun x d => p x = Valid d) l ds.
Proof.
  revert i ds. induction l as [|x l IH]; intros i ds; cbn [array_from].
  - intros H. injection H as <-. constructor.
  - intros H. apply pmap_inv in H as ([d ds'] & H & <-).
    apply both_inv in H as [H1 H2]. cbn [fst snd] in *.
    apply under_inv in H1. constructor; eauto.
Qed.

Lemma itemSchema_inv v d :
  itemSchema v = Valid d ->
  product_name d = v_product_name v /\
  v_quantity v = JNum (quantity d) /\
  v_unit_price v = JNum (unit_price d).
Proof.
  unfold itemSchema. intros H.
  apply pmap_inv in H as ((i & p & m & s & q & mt & u) & H & <-).
  repeat (apply both_inv in H as [?H H]; cbn [fst snd] in * ).
  unfold field in *.
  repeat match goal with
         | H : under _ _ = Valid _ |- _ => apply under_inv in H
         end.
  cbn [product_name quantity unit_price].
  split; [eapply string_min1_inv; eassumption|].
  split; eapply number_min_inv; eassumption.
Qed.

Lemma orderSchema_inv form data :
  orderSchema form = Valid data ->
  array itemSchema (f_order_items form) = Valid (order_items_ data).
Proof.
  unfold orderSchema. intros H.
  apply pmap_inv in H as ((n & ph & st & fp & tp & ec & tx & nt & its) & H & <-).
  repeat (apply both_inv in H as [?H H]; cbn [fst snd] in * ).
  unfold field in H. now apply under_inv in H.
Qed.

(** The triples of the rows inserted for validated line items. *)
Lemma stored_triples id n items :
  map Spec.triple_of (store_from n (map (orderItem id) items))
  = map (fun d => (product_name d, Some (quantity d), unit_price d)) items.
Proof.
  revert n. induction items as [|d items IH]; intros n; cbn; [reflexivity|].
  now rewrite IH.
Qed.

Lemma stored_owned id n items :
  List.filter (owned_by id) (store_from n (map (orderItem id) items))
  = store_from n (map (orderItem id) items).
Proof.
  revert n. induction items as [|d items IH]; intros n; cbn; [reflexivity|].
  unfold owned_by at 1. cbn. rewrite bool_decide_eq_true_2 by reflexivity.
  now rewrite IH.
Qed.

Lemma not_owned_filtered id (rows : list item_row) :
  List.filter (owned_by id) (List.filter (fun r => negb (owned_by id r)) rows) = [].
Proof.
  induction rows as [|r rows IH]; cbn; [reflexivity|].
  destruct (owned_by id r) eqn:E; cbn; [assumption|]. now rewrite E.
Qed.

Lemma loaded_items_triples rows ds :
  Forall2 (fun x d => itemSchema x = Valid d) (map item_of_row rows) ds ->
  map (fun d => (product_name d, Some (quantity d), unit_price d)) ds
  = map Spec.triple_of rows.
Proof.
  revert ds. induction rows as [|r rows IH]; intros ds H; inversion H; subst; cbn.
  - reflexivity.
  - f_equal; [|now apply IH].
    match goal with
    | E : itemSchema _ = Valid _ |- _ => apply itemSchema_inv in E as (E1 & E2 & E3)
    end.
    cbn in E1, E2, E3. unfold Spec.triple_of.
    destruct (i_quantity r) as [q|]; cbn in E2; [|discriminate].
    injection E2 as ->. injection E3 as ->. now rewrite E1.
Qed.

Lemma handleSubmit_cases (onValid : OrderFormData -> M state unit) s :
  snd (handleSubmit onValid s)
  = match orderSchema (st_form s) with
    | Valid data =>
        snd (onValid data
               {| st_world := st_world s; st_form := st_form s; st_errors := [];
                  st_loading := st_loading s;
                  st_initialLoading := st_initialLoading s |})
    | Invalid issues =>
        {| st_world := st_world s; st_form := st_form s; st_errors := issues;
           st_loading := st_loading s;
           st_initialLoading := st_initialLoading s |}
    end.
Proof.
  unfold handleSubmit, bind, gets, set_errors, modify.
  destruct (orderSchema (st_form s)); reflexivity.
Qed.

(** Loading an order and submitting the form as loaded. *)
Lemma resubmit_tables id t fails :
  (forall rows, fails (InsertItems rows) = false) ->
  let s := snd (handleSubmit (onSubmit id) (snd (fetchOrder id (mounted t fails)))) in
  Spec.triples id (w_tables (st_world s)) = Spec.triples id t.
Proof.
  intros Hins. cbv zeta.
  destruct (fetchOrder_cases id t fails) as (Ht & Hf & Hform).
  set (s1 := snd (fetchOrder id (mounted t fails))) in *.
  rewrite handleSubmit_cases.
  destruct (orderSchema (st_form s1)) as [data|issues] eqn:E.
  2:{ cbn [st_world]. now rewrite Ht. }
  destruct Hform as [Hd|(orderData & Ho & Hd)].
  { rewrite Hd in E. vm_compute in E. discriminate. }
  rewrite onSubmit_world. cbv zeta. cbn [st_world].
  rewrite Hf, Ht, Hins.
  destruct (fails (UpdateOrder id _)); cbn [w_tables]; [reflexivity|].
  destruct (fails (DeleteItems id)); cbn [w_tables]; [reflexivity|].
  unfold Spec.triples, select_items. cbn [insert_items delete_items update_order order_items].
  rewrite List.filter_app, not_owned_filtered, stored_owned. cbn [app].
  rewrite stored_triples.
  apply orderSchema_inv in E. rewrite Hd in E. cbn [form_of_rows f_order_items] in E.
  apply array_from_inv in E. now apply loaded_items_triples.
Qed.

(** The submit sequence is not atomic: when the order was loaded and the
    form validates, the update and the deletion succeed and the gateway
    then fails the insertion, the order is left without item rows. *)
Lemma failed_insert_leaves_no_items id t fails o :
  fails (SelectOrder id) = false ->
  fails (SelectItems id) = false ->
  select_order id t = Some o ->
  valid (orderSchema (form_of_rows o (select_items id t))) ->
  (forall p, fails (UpdateOrder id p) = false) ->
  fails (DeleteItems id) = false ->
  (forall rows, fails (InsertItems rows) = true) ->
  let s := snd (handleSubmit (onSubmit id) (snd (fetchOrder id (mounted t fails)))) in
  select_items id (w_tables (st_world s)) = [].
Proof.
  intros H1 H2 S [data E] Hu Hd Hi. cbv zeta.
  rewrite (fetchOrder_loaded id t fails o H1 H2 S).
  rewrite handleSubmit_cases. cbn [st_form]. rewrite E.
  rewrite onSubmit_world. cbv zeta. cbn [st_world w_fails w_tables].
  rewrite Hu, Hd, Hi. cbn [w_tables].
  unfold select_items. cbn [delete_items update_order order_items].
  apply not_owned_filtered.
Qed.

(** C4. Loading an order into the form and submitting it with the item
    set unchanged leaves the order's item rows with the same multiset of
    (product name, quantity, unit price), the rows being deleted and
    inserted again under new identifiers.  This holds when no request
    fails, and more generally under every pattern of failing requests in
    which the gateway does not fail the insertion. *)
Theorem resubmit_preserves_items :
  forall (id : string) (t : tables) (fails : call -> bool),
    (forall rows, fails (InsertItems rows) = false) ->
    let s := snd (handleSubmit (onSubmit id) (snd (fetchOrder id (mounted t fails)))) in
    Permutation (Spec.triples id t) (Spec.triples id (w_tables (st_world s))).
Proof.
  intros id t fails H. cbv zeta. now rewrite (resubmit_tables id t fails H).
Qed.

Lemma resubmit_preserves_items_witness :
  let s := snd (handleSubmit (onSubmit "o1")
                  (snd (fetchOrder "o1" (mounted Example.db Example.no_faults)))) in
  map i_id (order_items (w_tables (st_world s))) = ["item-0"] /\
  Permutation (Spec.triples "o1" Example.db)
              (Spec.triples "o1" (w_tables (st_world s))).
Proof.
  cbv zeta. split; [vm_compute; reflexivity|].
  exact (resubmit_preserves_items "o1" Example.db Example.no_faults
           (fun _ => eq_refl)).
Defined.

End Resubmission.

(** * The order editor: what a submission touches and signals *)

Section SubmissionEffects.

Import EditOrder.

Lemma onSubmit_result id data s :
  let s' := snd (onSubmit id data s) in
  fst (onSubmit id data s) = Return tt /\
  st_form s' = st_form s /\
  st_errors s' = st_errors s /\
  st_loading s' = false /\
  st_initialLoading s' = st_initialLoading s.
Proof.
  cbv zeta. destruct s as [w f e l il].
  unfold onSubmit, finally, catch, bind, setLoading, modify, gets, request,
    request_on, throw_if, toast_, navigate, console_error, on_world, ret, throw.
  cbn.
  destruct (w_fails w (UpdateOrder id _)); cbn; [now repeat split|].
  destruct (w_fails w (DeleteItems id)); cbn; [now repeat split|].
  destruct (w_fails w (InsertItems _)); cbn; now repeat split.
Qed.

Lemma stored_not_others id n items :
  List.filter (fun r => negb (owned_by id r)) (store_from n (map (orderItem id) items)) = [].
Proof.
  revert n. induction items as [|d items IH]; intros n; cbn; [reflexivity|].
  unfold owned_by at 1. cbn. rewrite bool_decide_eq_true_2 by reflexivity.
  cbn. apply IH.
Qed.

Lemma filter_twice {A} (f : A -> bool) l :
  List.filter f (List.filter f l) = List.filter f l.
Proof.
  induction l as [|x l IH]; cbn; [reflexivity|].
  destruct (f x) eqn:E; cbn; rewrite ?E, IH; reflexivity.
Qed.

Lemma patched_ids id p l :
  map o_id (map (fun r => if bool_decide (o_id r = id) then patch_order p r else r) l)
  = map o_id l.
Proof.
  induction l as [|r l IH]; cbn; [reflexivity|].
  rewrite IH. now destruct (bool_decide (o_id r = id)).
Qed.

Lemma patched_others id p l :
  List.filter (fun r => negb (bool_decide (o_id r = id)))
    (map (fun r => if bool_decide (o_id r = id) then patch_order p r else r) l)
  = List.filter (fun r => negb (bool_decide (o_id r = id))) l.
Proof.
  induction l as [|r l IH]; cbn; [reflexivity|].
  destruct (bool_decide_reflect (o_id r = id)) as [E|N]; cbn.
  - rewrite bool_decide_eq_true_2 by assumption. cbn. apply IH.
  - rewrite bool_decide_eq_false_2 by assumption. cbn. now rewrite IH.
Qed.

(** X1. A submission for one order never changes another order: whichever
    step fails or not, the item rows owned by other orders, the order rows
    with another identifier, the identifiers of all order rows and the
    customers are as before. *)
Theorem submit_frame :
  forall (id : string) (data : OrderFormData) (s : state),
    let t := w_tables (st_world s) in
    let t' := w_tables (st_world (snd (onSubmit id data s))) in
    List.filter (fun r => negb (owned_by id r)) (order_items t')
    = List.filter (fun r => negb (owned_by id r)) (order_items t) /\
    List.filter (fun r => negb (bool_decide (o_id r = id))) (orders t')
    = List.filter (fun r => negb (bool_decide (o_id r = id))) (orders t) /\
    map o_id (orders t') = map o_id (orders t) /\
    customers t' = customers t.
Proof.
  intros id data s. cbv zeta. rewrite onSubmit_world. cbv zeta.
  destruct (w_fails _ (UpdateOrder _ _)); [now repeat split|].
  destruct (w_fails _ (DeleteItems _)).
  { cbn. now rewrite patched_others, patched_ids. }
  destruct (w_fails _ (InsertItems _)); cbn;
    rewrite ?List.filter_app, ?stored_not_others, ?app_nil_r, filter_twice,
      patched_others, patched_ids; now repeat split.
Qed.

(** X2. A submission never lets an exception escape and always ends with
    the loading flag off and the form values untouched; it shows exactly
    one toast, the success toast when all three requests succeeded and the
    failure toast otherwise; it navigates to the order list only in the
    first case, and logs one error only in the second. *)
Theorem submit_signals :
  forall (id : string) (data : OrderFormData) (s : state),
    let w := st_world s in
    let ok := negb (w_fails w (UpdateOrder id (header_patch s data)))
              && negb (w_fails w (DeleteItems id))
              && negb (w_fails w (InsertItems (map (orderItem id) (order_items_ data)))) in
    let s' := snd (onSubmit id data s) in
    fst (onSubmit id data s) = Return tt /\
    st_loading s' = false /\
    st_form s' = st_form s /\
    w_toasts (st_world s')
    = w_toasts w ++ [if ok then update_succeeded else update_failed] /\
    w_route (st_world s') = (if ok then Some "/dashboard/orders" else w_route w) /\
    length (w_console (st_world s'))
    = (if ok then length (w_console w) else S (length (w_console w))).
Proof.
  intros id data s. cbv zeta.
  destruct (onSubmit_result id data s) as (R & F & _ & L & _). cbv zeta in *.
  rewrite onSubmit_world. cbv zeta.
  split; [exact R|]. split; [exact L|]. split; [exact F|].
  destruct (w_fails _ (UpdateOrder _ _)); cbn;
    [rewrite length_app; cbn; repeat split; lia|].
  destruct (w_fails _ (DeleteItems _)); cbn;
    [rewrite length_app; cbn; repeat split; lia|].
  destruct (w_fails _ (InsertItems _)); cbn;
    rewrite ?length_app; cbn; repeat split; lia.
Qed.

Lemma patch_twice id p l :
  map (fun r => if bool_decide (o_id r = id) then patch_order p r else r)
      (map (fun r => if bool_decide (o_id r = id) then patch_order p r else r) l)
  = map (fun r => if bool_decide (o_id r = id) then patch_order p r else r) l.
Proof.
  induction l as [|r l IH]; cbn; [reflexivity|]. rewrite IH. f_equal.
  destruct (bool_decide_reflect (o_id r = id)) as [E|N].
  - cbn. rewrite bool_decide_eq_true_2 by assumption.
    unfold patch_order. cbn. now destruct (u_notes p).
  - now rewrite bool_decide_eq_false_2 by assumption.
Qed.

Lemma stored_unkeyed n m ps :
  map Notions.unkeyed (store_from n ps) = map Notions.unkeyed (store_from m ps).
Proof.
  revert n m. induction ps as [|p ps IH]; intros n m; cbn; [reflexivity|].
  now rewrite (IH (S n) (S m)).
Qed.

(** X3. Submitting the same data twice in a row, with no request failing,
    does not duplicate anything: the order rows are the same as after one
    submission, and so are the item rows apart from their regenerated
    identifiers. *)
Theorem submit_twice :
  forall (id : string) (data : OrderFormData) (s : state),
    (forall c, w_fails (st_world s) c = false) ->
    let s1 := snd (onSubmit id data s) in
    let s2 := snd (onSubmit id data s1) in
    orders (w_tables (st_world s2)) = orders (w_tables (st_world s1)) /\
    map Notions.unkeyed (order_items (w_tables (st_world s2)))
    = map Notions.unkeyed (order_items (w_tables (st_world s1))).
Proof.
  intros id data s H. cbv zeta.
  assert (P : header_patch (snd (onSubmit id data s)) data = header_patch s data).
  { unfold header_patch, watchedItems, watchedPrices.
    destruct (onSubmit_result id data s) as (_ & -> & _). reflexivity. }
  rewrite (onSubmit_world id data (snd (onSubmit id data s))). cbv zeta.
  rewrite P. rewrite (onSubmit_world id data s). cbv zeta.
  rewrite !H. cbn [w_fails w_tables]. rewrite !H.
  cbn [insert_items delete_items update_order orders order_items id_seq customers
         w_tables].
  split; [apply patch_twice|].
  rewrite List.filter_app, filter_twice, stored_not_others, app_nil_r.
  rewrite !map_app. f_equal. apply stored_unkeyed.
Qed.

Lemma submit_twice_witness :
  let s := mounted Example.db Example.no_faults in
  let s1 := snd (onSubmit "o1" Example.data s) in
  let s2 := snd (onSubmit "o1" Example.data s1) in
  map i_id (order_items (w_tables (st_world s1))) = ["item-0"] /\
  map i_id (order_items (w_tables (st_world s2))) = ["item-1"] /\
  orders (w_tables (st_world s2)) = orders (w_tables (st_world s1)) /\
  map Notions.unkeyed (order_items (w_tables (st_world s2)))
  = map Notions.unkeyed (order_items (w_tables (st_world s1))).
Proof.
  cbv zeta. split; [vm_compute; reflexivity|]. split; [vm_compute; reflexivity|].
  exact (submit_twice "o1" Example.data (mounted Example.db Example.no_faults)
           (fun _ => eq_refl)).
Defined.

End SubmissionEffects.

(** * The order editor: what validation reports and returns *)

Section ValidationReports.

Import EditOrder.
Import Notions.

Lemma issues_pmap {A B} (f : A -> B) r : issues_of (pmap f r) = issues_of r.
Proof. now destruct r. Qed.

Lemma issues_both {A B} (ra : parsed A) (rb : parsed B) :
  issues_of (both ra rb) = issues_of ra ++ issues_of rb.
Proof. destruct ra, rb; cbn; now rewrite ?app_nil_r. Qed.

Lemma issues_under {A} s (r : parsed A) :
  issues_of (under s r)
  = map (fun x => {| path := s :: path x; message := message x |}) (issues_of r).
Proof. now destruct r. Qed.

Lemma issues_field {A} k (r : parsed A) :
  issues_of (field k r)
  = map (fun x => {| path := Key k :: path x; message := message x |}) (issues_of r).
Proof. apply issues_under. Qed.

Lemma issues_array_from {A B} (p : A -> parsed B) k l :
  issues_of (array_from p k l)
  = match l with
    | [] => []
    | x :: l =>
        map (fun i => {| path := Index k :: path i; message := message i |})
            (issues_of (p x))
        ++ issues_of (array_from p (S k) l)
    end.
Proof.
  destruct l as [|x l]; [reflexivity|].
  cbn [array_from]. now rewrite issues_pmap, issues_both, issues_under.
Qed.

Lemma issues_array_nth {A B} (p : A -> parsed B) l k j x i :
  nth_error l j = Some x -> In i (issues_of (p x)) ->
  In {| path := Index (k + j) :: path i; message := message i |}
     (issues_of (array_from p k l)).
Proof.
  revert k j. induction l as [|y l IH]; intros k j Hn Hi.
  - destruct j; discriminate.
  - rewrite issues_array_from. apply in_or_app. destruct j as [|j]; cbn in Hn.
    + injection Hn as ->. left. rewrite Nat.add_0_r.
      now apply (in_map (fun i => {| path := Index k :: path i; message := message i |})).
    + right. replace (k + S j)%nat with (S k + j)%nat by lia. now apply IH.
Qed.

Lemma issues_array_all {A B} (p : A -> parsed B) (Q : issue -> Prop) l k :
  (forall j x i, nth_error l j = Some x -> In i (issues_of (p x)) ->
                 Q {| path := Index (k + j) :: path i; message := message i |}) ->
  Forall Q (issues_of (array_from p k l)).
Proof.
  revert k. induction l as [|y l IH]; intros k H; rewrite issues_array_from.
  - constructor.
  - apply Forall_app. split.
    + apply List.Forall_forall. intros i Hi. apply in_map_iff in Hi as (i0 & <- & Hi0).
      specialize (H 0%nat y i0 eq_refl Hi0). now rewrite Nat.add_0_r in H.
    + apply IH. intros j x i Hn Hi.
      specialize (H (S j) x i Hn Hi). now replace (S k + j)%nat with (k + S j)%nat by lia.
Qed.

Lemma itemSchema_issues v :
  issues_of (itemSchema v)
  = issues_of (field "product_name" (string_min1 product_name_required (v_product_name v)))
    ++ issues_of (field "quantity"
                    (andThen (number_ (v_quantity v))
                             (min (of_int 1) (Some quantity_required))))
    ++ issues_of (field "meters" (optional number_ (v_meters v)))
    ++ issues_of (field "unit_price"
                    (andThen (number_ (v_unit_price v))
                             (min (of_int 0) (Some price_required)))).
Proof.
  unfold itemSchema. rewrite issues_pmap, !issues_both.
  unfold string_optional. cbn [field under issues_of app]. reflexivity.
Qed.

Lemma orderSchema_issues f :
  issues_of (orderSchema f)
  = issues_of (field "customer_name"
                 (string_min1 customer_name_required (f_customer_name f)))
    ++ issues_of (field "customer_phone"
                    (string_min1 customer_phone_required (f_customer_phone f)))
    ++ issues_of (field "status" (status_enum (f_status f)))
    ++ issues_of (field "fabric_price" (surcharge (f_fabric_price f)))
    ++ issues_of (field "tailoring_price" (surcharge (f_tailoring_price f)))
    ++ issues_of (field "extra_costs" (surcharge (f_extra_costs f)))
    ++ issues_of (field "tax_amount" (surcharge (f_tax_amount f)))
    ++ issues_of (field "order_items" (array itemSchema (f_order_items f))).
Proof.
  unfold orderSchema. rewrite issues_pmap, !issues_both.
  unfold string_optional. cbn [field under issues_of app]. reflexivity.
Qed.

Lemma item_issue_in f i item k msg :
  nth_error (f_order_items f) i = Some item ->
  In {| path := [Key k]; message := Some msg |} (issues_of (itemSchema item)) ->
  In (item_issue i k msg) (issues_of (orderSchema f)).
Proof.
  intros Hn Hi. rewrite orderSchema_issues. repeat (apply in_or_app; right).
  rewrite issues_field. unfold array.
  apply (in_map (fun x => {| path := Key "order_items" :: path x; message := message x |})
           _ _ (issues_array_nth itemSchema _ 0 i item _ Hn Hi)).
Qed.

(** X4. The resolver reports a failing line item at that item's own
    position: for the item at index [i], an empty product name, a quantity
    below 1 and a unit price below 0 each raise their message at the path
    [order_items.i.<field>], whatever else is wrong in the form. *)
Theorem item_issue_located :
  forall (f : form_values) (i : nat) (item : item_values),
    nth_error (f_order_items f) i = Some item ->
    (v_product_name item = "" ->
     In (item_issue i "product_name" product_name_required) (issues_of (orderSchema f))) /\
    (forall q, v_quantity item = JNum q -> lt q (of_int 1) = true ->
     In (item_issue i "quantity" quantity_required) (issues_of (orderSchema f))) /\
    (forall p, v_unit_price item = JNum p -> lt p (of_int 0) = true ->
     In (item_issue i "unit_price" price_required) (issues_of (orderSchema f))).
Proof.
  intros f i item Hn. repeat split.
  - intros E. apply (item_issue_in f i item _ _ Hn).
    rewrite itemSchema_issues, E. apply in_or_app. left. now left.
  - intros q E L. apply (item_issue_in f i item _ _ Hn).
    rewrite itemSchema_issues, E. apply in_or_app. right. apply in_or_app. left.
    unfold andThen, number_, min. destruct q; try discriminate; rewrite L; now left.
  - intros p E L. apply (item_issue_in f i item _ _ Hn).
    rewrite itemSchema_issues, E. repeat (apply in_or_app; right).
    unfold andThen, number_, min. destruct p; try discriminate; rewrite L; now left.
Qed.

Lemma item_issue_located_witness :
  let f := {| f_customer_name := "Ali"; f_customer_phone := "";
              f_status := Some "pending";
              f_fabric_price := JNum (of_int 0); f_tailoring_price := JNum (of_int 0);
              f_extra_costs := JNum (of_int 0); f_tax_amount := JNum (of_int 0);
              f_notes := Some "";
              f_order_items := [Example.named_line; blank_item] |} in
  In (item_issue 1 "product_name" product_name_required) (issues_of (orderSchema f)).
Proof.
  cbv zeta.
  match goal with
  | |- In _ (issues_of (orderSchema ?f)) =>
      exact (proj1 (item_issue_located f 1%nat blank_item eq_refl) eq_refl)
  end.
Defined.

(** *** Every issue points at a field, and a rejection is never silent *)

Lemma leaf_string_min1 msg s : Forall (fun i => path i = []) (issues_of (string_min1 msg s)).
Proof. unfold string_min1, fail. destruct (bool_decide (s = "")); cbn; auto. Qed.

Lemma leaf_number_min v m msg :
  Forall (fun i => path i = []) (issues_of (andThen (number_ v) (min m msg))).
Proof.
  unfold andThen, number_, min, fail.
  destruct v as [| |[ | | | ]]; cbn; auto; destruct (lt _ m); cbn; auto.
Qed.

Lemma leaf_optional_number v :
  Forall (fun i => path i = []) (issues_of (optional number_ v)).
Proof. unfold optional, number_, fail. destruct v as [| |[ | | | ]]; cbn; auto. Qed.

Lemma leaf_status_enum s : Forall (fun i => path i = []) (issues_of (status_enum s)).
Proof.
  unfold status_enum, fail.
  repeat match goal with |- context [bool_decide ?P] => destruct (bool_decide P) end;
    cbn; auto.
Qed.

Lemma leaf_surcharge v : Forall (fun i => path i = []) (issues_of (surcharge v)).
Proof. unfold surcharge, default. destruct v; apply leaf_number_min. Qed.

Lemma field_paths {A} k (r : parsed A) :
  Forall (fun i => path i = []) (issues_of r) ->
  Forall (fun i => path i = [Key k]) (issues_of (field k r)).
Proof.
  intros H. rewrite issues_field. apply List.Forall_map.
  eapply List.Forall_impl; [|exact H]. cbn. intros i ->. reflexivity.
Qed.

Lemma itemSchema_paths v :
  Forall (fun i => exists k, path i = [Key k] /\ In k item_keys) (issues_of (itemSchema v)).
Proof.
  rewrite itemSchema_issues. repeat (apply List.Forall_app; split).
  - eapply List.Forall_impl; [|apply field_paths, leaf_string_min1].
    cbn. intros i ->. eexists. split; [reflexivity|]. cbn. tauto.
  - eapply List.Forall_impl; [|apply field_paths, leaf_number_min].
    cbn. intros i ->. eexists. split; [reflexivity|]. cbn. tauto.
  - eapply List.Forall_impl; [|apply field_paths, leaf_optional_number].
    cbn. intros i ->. eexists. split; [reflexivity|]. cbn. tauto.
  - eapply List.Forall_impl; [|apply field_paths, leaf_number_min].
    cbn. intros i ->. eexists. split; [reflexivity|]. cbn. tauto.
Qed.

Lemma orderSchema_paths f :
  Forall (located (length (f_order_items f))) (issues_of (orderSchema f)).
Proof.
  assert (Hd : forall k (l : list issue),
             In k header_keys -> Forall (fun i => path i = [Key k]) l ->
             Forall (located (length (f_order_items f))) l).
  { intros k l Hk H. eapply List.Forall_impl; [|exact H]. cbn. intros i E. left. eauto. }
  rewrite orderSchema_issues. repeat (apply List.Forall_app; split).
  - eapply Hd; [|apply field_paths, leaf_string_min1]. cbn. tauto.
  - eapply Hd; [|apply field_paths, leaf_string_min1]. cbn. tauto.
  - eapply Hd; [|apply field_paths, leaf_status_enum]. cbn. tauto.
  - eapply Hd; [|apply field_paths, leaf_surcharge]. cbn. tauto.
  - eapply Hd; [|apply field_paths, leaf_surcharge]. cbn. tauto.
  - eapply Hd; [|apply field_paths, leaf_surcharge]. cbn. tauto.
  - eapply Hd; [|apply field_paths, leaf_surcharge]. cbn. tauto.
  - rewrite issues_field. apply List.Forall_map. unfold array.
    apply issues_array_all. intros j x i Hn Hi. cbn.
    pose proof (itemSchema_paths x) as P. rewrite List.Forall_forall in P.
    destruct (P i Hi) as (k & E & Hk). right. exists j, k. cbn. rewrite E.
    split; [reflexivity|]. split; [|assumption].
    apply nth_error_Some. congruence.
Qed.

Lemma quiet_valid_array {A B} (p : A -> parsed B) l k :
  (forall x, issues_of (p x) = [] -> valid (p x)) ->
  issues_of (array_from p k l) = [] -> valid (array_from p k l).
Proof.
  intros Hp. revert k. induction l as [|x l IH]; intros k H.
  - now exists [].
  - rewrite issues_array_from in H. apply app_eq_nil in H as [H1 H2].
    cbn [array_from]. apply valid_pmap, valid_both. split.
    + apply valid_under, Hp. now destruct (issues_of (p x)).
    + now apply IH.
Qed.

Lemma quiet_string_min1 msg s : issues_of (string_min1 msg s) = [] -> s <> "".
Proof.
  unfold string_min1, fail. destruct (bool_decide_reflect (s = "")); [discriminate|auto].
Qed.

Lemma quiet_number_min v m msg :
  issues_of (andThen (number_ v) (min m msg)) = [] ->
  valid (andThen (number_ v) (min m msg)).
Proof.
  unfold valid, andThen, number_, min, fail.
  destruct v as [| |[ | | | ]]; cbn; try discriminate;
    destruct (lt _ m); cbn; try discriminate; eauto.
Qed.

Lemma quiet_optional_number v :
  issues_of (optional number_ v) = [] -> valid (optional number_ v).
Proof.
  unfold valid, optional, number_, fail, pmap.
  destruct v as [| |[ | | | ]]; cbn; try discriminate; eauto.
Qed.

Lemma quiet_status_enum s : issues_of (status_enum s) = [] -> valid (status_enum s).
Proof.
  unfold valid, status_enum, fail.
  repeat match goal with |- context [bool_decide ?P] => destruct (bool_decide P) end;
    cbn; try discriminate; eauto.
Qed.

Lemma quiet_surcharge v : issues_of (surcharge v) = [] -> valid (surcharge v).
Proof. unfold surcharge, default. destruct v; apply quiet_number_min. Qed.

Lemma quiet_field {A} k (r : parsed A) : issues_of (field k r) = [] -> issues_of r = [].
Proof. rewrite issues_field. now destruct (issues_of r). Qed.

Lemma quiet_itemSchema v : issues_of (itemSchema v) = [] -> valid (itemSchema v).
Proof.
  rewrite itemSchema_issues. intros H.
  repeat match type of H with
         | _ ++ _ = [] => apply app_eq_nil in H as [?H H]
         end.
  unfold itemSchema.
  rewrite valid_pmap, !valid_both, !valid_field, !valid_string_optional.
  repeat split.
  - apply valid_string_min1. eapply quiet_string_min1, quiet_field; eassumption.
  - eapply quiet_number_min, quiet_field; eassumption.
  - eapply quiet_optional_number, quiet_field; eassumption.
  - eapply quiet_number_min, quiet_field; eassumption.
Qed.

Lemma quiet_orderSchema f : issues_of (orderSchema f) = [] -> valid (orderSchema f).
Proof.
  rewrite orderSchema_issues. intros H.
  repeat match type of H with
         | _ ++ _ = [] => apply app_eq_nil in H as [?H H]
         end.
  unfold orderSchema.
  rewrite valid_pmap, !valid_both, !valid_field, !valid_string_optional.
  repeat split.
  - apply valid_string_min1. eapply quiet_string_min1, quiet_field; eassumption.
  - apply valid_string_min1. eapply quiet_string_min1, quiet_field; eassumption.
  - eapply quiet_status_enum, quiet_field; eassumption.
  - eapply quiet_surcharge, quiet_field; eassumption.
  - eapply quiet_surcharge, quiet_field; eassumption.
  - eapply quiet_surcharge, quiet_field; eassumption.
  - eapply quiet_surcharge, quiet_field; eassumption.
  - apply quiet_valid_array; [exact quiet_itemSchema|]. eapply quiet_field; eassumption.
Qed.

(** X5. When the resolver rejects a form it reports at least one issue,
    and every issue it reports points at a field that exists: a header
    field, or a field of a line item whose index is within the item
    list. *)
Theorem rejection_is_located :
  forall (f : form_values) (issues : list issue),
    orderSchema f = Invalid issues ->
    issues <> [] /\ Forall (located (length (f_order_items f))) issues.
Proof.
  intros f issues E. split.
  - intros ->. destruct (quiet_orderSchema f) as [d Hd]; [now rewrite E|]. congruence.
  - pose proof (orderSchema_paths f) as P. now rewrite E in P.
Qed.

Lemma rejection_is_located_witness :
  let f := {| f_customer_name := "Ali"; f_customer_phone := "";
              f_status := Some "pending";
              f_fabric_price := JNum (of_int 0); f_tailoring_price := JNum (of_int 0);
              f_extra_costs := JNum (of_int 0); f_tax_amount := JNum (of_int 0);
              f_notes := Some "";
              f_order_items := [Example.named_line; blank_item] |} in
  exists issues,
    orderSchema f = Invalid issues /\
    map path issues
    = [ [Key "customer_phone"]; [Key "order_items"; Index 1; Key "product_name"] ] /\
    issues <> [] /\ Forall (located 2) issues.
Proof.
  cbv zeta. eexists. split; [vm_compute; reflexivity|]. split; [reflexivity|].
  match goal with
  | |- ?l <> [] /\ _ =>
      exact (rejection_is_located
               {| f_customer_name := "Ali"; f_customer_phone := "";
                  f_status := Some "pending";
                  f_fabric_price := JNum (of_int 0); f_tailoring_price := JNum (of_int 0);
                  f_extra_costs := JNum (of_int 0); f_tax_amount := JNum (of_int 0);
                  f_notes := Some "";
                  f_order_items := [Example.named_line; blank_item] |} l eq_refl)
  end.
Defined.

(** *** A valid parse carries the values of the form *)

Lemma string_optional_inv s o : string_optional s = Valid o -> o = s.
Proof. unfold string_optional. intros H. now injection H. Qed.

Lemma status_enum_inv s st : status_enum s = Valid st -> s = Some (status_key st).
Proof.
  unfold status_enum, fail.
  destruct (bool_decide_reflect (s = Some "pending")) as [->|_];
    [intros H; now injection H as <-|].
  destruct (bool_decide_reflect (s = Some "completed")) as [->|_];
    [intros H; now injection H as <-|].
  destruct (bool_decide_reflect (s = Some "cancelled")) as [->|_];
    [intros H; now injection H as <-|].
  discriminate.
Qed.

Lemma number_min_not_nan v m msg n :
  andThen (number_ v) (min m msg) = Valid n -> n <> NaN.
Proof.
  unfold andThen, number_, min, fail.
  destruct v as [| |[s|s| |s mm e]]; try discriminate;
    destruct (lt _ m); try discriminate; intros H; injection H as <-; discriminate.
Qed.

Lemma surcharge_inv v x : surcharge v = Valid x -> surcharge_mirrors v x.
Proof.
  unfold surcharge, default, surcharge_mirrors. destruct v as [| |n].
  - intros H. left. split; [reflexivity|]. vm_compute in H. now injection H.
  - intros H. apply number_min_inv in H. discriminate.
  - intros H. right. pose proof (number_min_not_nan _ _ _ _ H) as N.
    apply number_min_inv in H. now injection H as ->.
Qed.

Lemma optional_number_inv v o :
  optional number_ v = Valid o ->
  (v = JUndefined /\ o = None) \/ (exists m, v = JNum m /\ o = Some m).
Proof.
  unfold optional, number_, pmap, fail.
  destruct v as [| |[s|s| |s mm e]]; try discriminate; intros H; injection H as <-; eauto.
Qed.

Lemma itemSchema_mirrors v d : itemSchema v = Valid d -> item_mirrors v d.
Proof.
  unfold itemSchema. intros H.
  apply pmap_inv in H as ((i & p & m & s & q & mt & u) & H & <-).
  repeat (apply both_inv in H as [?H H]; cbn [fst snd] in * ).
  unfold field in *.
  repeat match goal with
         | H : under _ _ = Valid _ |- _ => apply under_inv in H
         end.
  unfold item_mirrors. cbn [item_id product_name model size quantity meters unit_price].
  repeat match goal with
         | H : string_optional _ = Valid _ |- _ => apply string_optional_inv in H
         | H : string_min1 _ _ = Valid _ |- _ => apply string_min1_inv in H
         | H : andThen (number_ _) _ = Valid _ |- _ => apply number_min_inv in H
         | H : optional number_ _ = Valid _ |- _ => apply optional_number_inv in H
         end.
  repeat split; assumption.
Qed.

Lemma orderSchema_mirrors f d : orderSchema f = Valid d -> form_mirrors f d.
Proof.
  intros H. unfold orderSchema in H.
  apply pmap_inv in H as ((n & ph & st & fp & tp & ec & tx & nt & its) & H & <-).
  repeat (apply both_inv in H as [?H H]; cbn [fst snd] in * ).
  unfold field in *.
  repeat match goal with
         | H : under _ _ = Valid _ |- _ => apply under_inv in H
         end.
  unfold form_mirrors.
  cbn [customer_name customer_phone status_ fabric_price tailoring_price extra_costs
         tax_amount notes order_items_].
  repeat match goal with
         | H : string_optional _ = Valid _ |- _ => apply string_optional_inv in H
         | H : string_min1 _ _ = Valid _ |- _ => apply string_min1_inv in H
         | H : status_enum _ = Valid _ |- _ => apply status_enum_inv in H
         | H : surcharge _ = Valid _ |- _ => apply surcharge_inv in H
         end.
  repeat (split; [assumption|]).
  apply array_from_inv in H.
  eapply List.Forall2_impl; [|exact H]. intros v x. apply itemSchema_mirrors.
Qed.

(** X6. What the resolver hands to the submit handler is the form as the
    user filled it: every field of the parsed data equals the form's value
    (a surcharge left undefined becoming 0, and absent meters staying
    absent); nothing is trimmed, rounded or reordered. *)
Theorem valid_data_mirrors_form :
  forall (f : form_values) (d : OrderFormData),
    orderSchema f = Valid d -> form_mirrors f d.
Proof. intros f d. apply orderSchema_mirrors. Qed.

Lemma valid_data_mirrors_form_witness :
  let second := {| v_id := Some "a2"; v_product_name := "bisht"; v_model := Some "M1";
                   v_size := None; v_quantity := JNum (of_int 1);
                   v_meters := JNum (dec 35 10); v_unit_price := JNum (of_int 35) |} in
  let f := {| f_customer_name := "Ali"; f_customer_phone := "0550000000";
              f_status := Some "completed";
              f_fabric_price := JUndefined; f_tailoring_price := JNum (of_int 3);
              f_extra_costs := JUndefined; f_tax_amount := JNum (of_int 0);
              f_notes := None;
              f_order_items := [Example.named_line; second] |} in
  exists d,
    orderSchema f = Valid d /\
    form_mirrors f d /\
    fabric_price d = of_int 0 /\
    tailoring_price d = of_int 3 /\
    map (fun i => (item_id i, product_name i, model i, quantity i, meters i, unit_price i))
        (order_items_ d)
    = [ (None, "thobe", None, of_int 2, None, of_int 10);
        (Some "a2", "bisht", Some "M1", of_int 1, Some (dec 35 10), of_int 35) ].
Proof.
  cbv zeta. eexists. split; [vm_compute; reflexivity|].
  split; [|repeat split; vm_compute; reflexivity].
  match goal with
  | |- form_mirrors ?f ?d => exact (valid_data_mirrors_form f d eq_refl)
  end.
Defined.

End ValidationReports.

(** * The order editor: the item list and its preview *)

Section ItemList.

Import EditOrder.
Import EditOrderView.
Import Notions.

Lemma add_zero_r x : x <> neg_zero -> add x zero = x.
Proof.
  intros H. destruct x as [[]|s| |s m e]; cbn; try reflexivity. now destruct H.
Qed.

(** X7. Appending the blank item leaves the items total as it is and adds
    one piece; it makes the remove buttons appear as soon as another item
    is listed; and the form cannot be saved until the new item gets a
    product name. *)
Theorem append_blank_item :
  forall (fields : list item_values),
    itemsTotal (append blank_item fields) = itemsTotal fields /\
    totalPieces (append blank_item fields) = add (totalPieces fields) (of_int 1) /\
    (remove_shown (append blank_item fields) = true <-> fields <> []) /\
    (forall f, f_order_items f = append blank_item fields -> ~ valid (orderSchema f)).
Proof.
  intros fields. unfold append. repeat split.
  - unfold itemsTotal. rewrite fold_left_app. cbn [fold_left].
    change (fold_left _ fields zero) with (itemsTotal fields).
    change (mul _ _) with zero. apply add_zero_r, itemsTotal_clean.
  - unfold totalPieces. now rewrite fold_left_app.
  - unfold remove_shown. rewrite length_app. cbn. intros H ->. cbn in H. discriminate.
  - unfold remove_shown. rewrite length_app. cbn. intros H.
    destruct fields; [now destruct H|]. cbn. now rewrite Nat.add_1_r.
  - intros f E V. apply orderSchema_valid in V as [_ V]. rewrite E in V.
    apply List.Forall_app in V as [_ V]. inversion V as [|? ? (N & _) _]; subst.
    now apply N.
Qed.

Lemma append_blank_item_witness :
  let fields := append blank_item [Example.named_line] in
  let f := {| f_customer_name := "Ali"; f_customer_phone := "0550000000";
              f_status := Some "pending";
              f_fabric_price := JUndefined; f_tailoring_price := JUndefined;
              f_extra_costs := JUndefined; f_tax_amount := JUndefined;
              f_notes := None; f_order_items := fields |} in
  itemsTotal fields = of_int 20 /\
  totalPieces fields = of_int 3 /\
  remove_shown fields = true /\
  ~ valid (orderSchema f).
Proof.
  cbv zeta.
  destruct (append_blank_item [Example.named_line]) as (A & B & C & D).
  split; [exact (eq_trans A eq_refl)|].
  split; [exact (eq_trans B eq_refl)|].
  split; [apply C; discriminate|].
  apply D. reflexivity.
Defined.

Lemma ge_one_truthy q : ge q (of_int 1) = true -> truthy q = true.
Proof.
  destruct q as [s|s| |s m e]; cbn; try reflexivity; [destruct s|]; discriminate.
Qed.

Lemma ge_zero_or_zero p : ge p (of_int 0) = true -> p <> neg_zero -> or_zero (JNum p) = p.
Proof.
  destruct p as [[]|s| |s m e]; cbn; try reflexivity; try discriminate.
  intros _ H. now destruct H.
Qed.

(** X8. The "total of this product" line shows exactly what will be stored
    as the row's [total_price] for every item that passes validation (its
    unit price not being negative zero), and shows 0 for a position with
    no item. *)
Theorem line_total_preview :
  forall (items : list item_values) (i : nat),
    (nth_error items i = None -> lineTotal items i = zero) /\
    (forall item d id,
        nth_error items i = Some item ->
        itemSchema item = Valid d ->
        unit_price d <> neg_zero ->
        lineTotal items i = n_total_price (orderItem id d)).
Proof.
  intros items i. split.
  - intros H. unfold lineTotal, quantity_at, unit_price_at. now rewrite H.
  - intros item d id Hn Hv Hz.
    unfold lineTotal, quantity_at, unit_price_at. rewrite Hn. cbn [orderItem n_total_price].
    assert (V : valid (itemSchema item)) by now exists d.
    apply itemSchema_valid in V as (_ & (q & Eq & Gq) & (p & Ep & Gp) & _).
    apply itemSchema_mirrors in Hv as (_ & _ & _ & _ & Eq' & Ep' & _).
    rewrite Eq in Eq'. injection Eq' as ->. rewrite Ep in Ep'. injection Ep' as ->.
    rewrite Eq, Ep. cbn [or_zero]. rewrite (ge_one_truthy _ Gq).
    fold (or_zero (JNum (unit_price d))). now rewrite (ge_zero_or_zero _ Gp Hz).
Qed.

Lemma line_total_preview_witness :
  lineTotal [Example.named_line] 0 = of_int 20 /\
  lineTotal [Example.named_line] 1 = zero.
Proof.
  split.
  - refine (eq_trans (proj2 (line_total_preview [Example.named_line] 0%nat)
                        Example.named_line _ "o1" eq_refl eq_refl _) _).
    + vm_compute. discriminate.
    + vm_compute. reflexivity.
  - exact (proj1 (line_total_preview [Example.named_line] 1%nat) eq_refl).
Defined.

End ItemList.

(** * The order editor: loading, and which orders can be saved back *)

Section Reloading.

Import EditOrder.
Import Notions.

(** X9. Loading an order never writes and never lets an exception escape;
    it always ends with the initial-loading flag off.  When the order
    request fails or finds no single row, the items are not requested;
    when either request fails the form keeps its default values, one
    destructive toast is shown and the error is logged; otherwise the form
    holds the values built from the fetched rows and nothing is shown. *)
Theorem load_outcome :
  forall (id : string) (t : tables) (fails : call -> bool),
    let s := snd (fetchOrder id (mounted t fails)) in
    let w := st_world s in
    fst (fetchOrder id (mounted t fails)) = Return tt /\
    st_initialLoading s = false /\
    w_tables w = t /\
    match (if fails (SelectOrder id) then None else select_order id t) with
    | None =>
        w_calls w = [SelectOrder id] /\
        st_form s = defaultValues /\
        w_toasts w = [load_failed] /\
        w_console w = [GatewayError (SelectOrder id)]
    | Some orderData =>
        w_calls w = [SelectOrder id; SelectItems id] /\
        if fails (SelectItems id) then
          st_form s = defaultValues /\
          w_toasts w = [load_failed] /\
          w_console w = [GatewayError (SelectItems id)]
        else
          st_form s = form_of_rows orderData (select_items id t) /\
          w_toasts w = [] /\
          w_console w = []
    end.
Proof.
  intros id t fails. cbv zeta.
  unfold fetchOrder, finally, catch, bind, request, request_on, mounted.
  cbn.
  destruct (fails (SelectOrder id)) eqn:H1; cbn; [now repeat split|].
  destruct (select_order id t) as [orderData|] eqn:H3; cbn; [|now repeat split].
  destruct (fails (SelectItems id)) eqn:H2; cbn; now repeat split.
Qed.

Lemma or_zero_not_nan v : or_zero v <> NaN.
Proof. destruct v as [| |[s|s| |s m e]]; cbn; discriminate. Qed.

Lemma seeded_surcharge_ok (o : option number) :
  Spec.surcharge_ok (JNum (or_zero (JNum (Number (of_nullable o))))) <-> storable o.
Proof.
  unfold Spec.surcharge_ok, storable. destruct o as [x|]; cbn [of_nullable Number].
  - split.
    + intros [H|(y & E & G)]; [discriminate|]. injection E as <-.
      cbn [or_zero] in G. destruct (truthy x); [now right|now left].
    + intros H. right. eexists. split; [reflexivity|]. cbn [or_zero].
      destruct (truthy x); [|reflexivity]. now destruct H.
  - split; [auto|]. intros _. right. now exists zero.
Qed.

Lemma loaded_item_ok (r : item_row) : Spec.item_ok (item_of_row r) <-> editable r.
Proof.
  unfold Spec.item_ok, editable, item_of_row.
  cbn [v_product_name v_quantity v_unit_price v_meters Number].
  split.
  - intros (N & (q & Eq & Gq) & (p & Ep & Gp) & _). split; [exact N|]. split.
    + destruct (i_quantity r) as [q'|]; [|discriminate]. injection Eq as ->. eauto.
    + now injection Ep as ->.
  - intros (N & (q & Eq & Gq) & Gp). split; [exact N|]. split; [|split].
    + exists q. now rewrite Eq.
    + eauto.
    + right. eexists. split; [reflexivity|]. apply or_zero_not_nan.
Qed.

Lemma form_of_rows_valid (o : order_row) (rows : list item_row) :
  valid (orderSchema (form_of_rows o rows)) <->
  o_customer_name o <> "" /\
  o_customer_phone o <> "" /\
  (exists st, o_status o = Some (status_key st)) /\
  storable (o_fabric_price o) /\
  storable (o_tailoring_price o) /\
  storable (o_extra_costs o) /\
  storable (o_tax_amount o) /\
  Forall editable rows.
Proof.
  rewrite orderSchema_valid. unfold Spec.header_ok, form_of_rows.
  cbn [f_customer_name f_customer_phone f_status f_fabric_price f_tailoring_price
         f_extra_costs f_tax_amount f_order_items].
  rewrite !seeded_surcharge_ok, List.Forall_map.
  rewrite (Forall_iff _ rows _ loaded_item_ok). tauto.
Qed.

(** X10. Which stored orders the editor can save at all: the form built
    from the fetched rows passes validation exactly when the customer name
    and phone are non-empty, the status is one of the three values, each
    stored surcharge is missing, falsy or >= 0, and every item row has a
    non-empty product name, a quantity that is present and >= 1, and a
    unit price >= 0.  (An item row with no quantity blocks saving.) *)
Theorem loaded_form_valid_iff :
  forall (o : order_row) (rows : list item_row),
    valid (orderSchema (form_of_rows o rows)) <->
    o_customer_name o <> "" /\
    o_customer_phone o <> "" /\
    (exists st, o_status o = Some (status_key st)) /\
    storable (o_fabric_price o) /\
    storable (o_tailoring_price o) /\
    storable (o_extra_costs o) /\
    storable (o_tax_amount o) /\
    Forall editable rows.
Proof. exact form_of_rows_valid. Qed.

(** *** Saving, and loading what was saved *)

Lemma saved_items id t p ds :
  select_items id
    (insert_items (map (orderItem id) ds) (delete_items id (update_order id p t)))
  = store_from (id_seq t) (map (orderItem id) ds).
Proof.
  unfold select_items.
  cbn [insert_items delete_items update_order order_items id_seq].
  now rewrite List.filter_app, not_owned_filtered, stored_owned.
Qed.

Lemma handleSubmit_saved id s data :
  orderSchema (st_form s) = Valid data ->
  (forall c, w_fails (st_world s) c = false) ->
  w_tables (st_world (snd (handleSubmit (onSubmit id) s)))
  = insert_items (map (orderItem id) (order_items_ data))
      (delete_items id (update_order id (header_patch s data) (w_tables (st_world s)))).
Proof.
  intros E H. rewrite handleSubmit_cases, E, onSubmit_world. cbv zeta. cbn [st_world].
  rewrite !H. reflexivity.
Qed.






Lemma filter_patched id p l :
  List.filter (fun r => bool_decide (o_id r = id))
    (map (fun r => if bool_decide (o_id r = id) then patch_order p r else r) l)
  = map (patch_order p) (List.filter (fun r => bool_decide (o_id r = id)) l).
Proof.
  induction l as [|r l IH]; cbn; [reflexivity|].
  destruct (bool_decide_reflect (o_id r = id)) as [E|N]; cbn.
  - rewrite bool_decide_eq_true_2 by assumption. cbn. now rewrite IH.
  - now rewrite bool_decide_eq_false_2 by assumption.
Qed.

Lemma select_order_saved id p ps t r0 :
  select_order id t = Some r0 ->
  select_order id (insert_items ps (delete_items id (update_order id p t)))
  = Some (patch_order p r0).
Proof.
  unfold select_order. cbn [insert_items delete_items update_order orders].
  rewrite filter_patched.
  destruct (List.filter _ (orders t)) as [|r [|r' l]]; try discriminate.
  intros H. injection H as ->. reflexivity.
Qed.

Lemma surcharge_ge v x : surcharge v = Valid x -> ge x (of_int 0) = true.
Proof.
  intros H. assert (V : valid (surcharge v)) by now exists x.
  apply surcharge_inv in H as [[-> ->]|[-> _]]; [reflexivity|].
  apply valid_surcharge in V as [V|(y & E & G)]; [discriminate|].
  now injection E as ->.
Qed.

Lemma surcharge_storable v x : surcharge v = Valid x -> storable (Some x).
Proof. intros H. right. now apply surcharge_ge in H. Qed.

Lemma itemSchema_data_ok v d :
  itemSchema v = Valid d ->
  product_name d <> "" /\
  ge (quantity d) (of_int 1) = true /\
  ge (unit_price d) (of_int 0) = true.
Proof.
  intros H. assert (V : valid (itemSchema v)) by now exists d.
  apply itemSchema_valid in V as (N & (q & Eq & Gq) & (p & Ep & Gp) & _).
  apply itemSchema_mirrors in H as (_ & En & _ & _ & Eq' & Ep' & _).
  rewrite Eq in Eq'. injection Eq' as ->. rewrite Ep in Ep'. injection Ep' as ->.
  rewrite En. auto.
Qed.

Lemma stored_editable id n raw ds :
  Forall2 (fun x d => itemSchema x = Valid d) raw ds ->
  Forall editable (store_from n (map (orderItem id) ds)).
Proof.
  intros H. revert n. induction H as [|v d raw ds Hv _ IH]; intros n; cbn; constructor.
  - apply itemSchema_data_ok in Hv as (N & Gq & Gp).
    unfold editable, stored, orderItem. cbn. eauto.
  - apply IH.
Qed.

Lemma reloaded_items id n ds ds' :
  Forall2 item_mirrors (map item_of_row (store_from n (map (orderItem id) ds))) ds' ->
  map (fun d => (product_name d, quantity d, unit_price d)) ds'
  = map (fun d => (product_name d, quantity d, unit_price d)) ds.
Proof.
  revert n ds'. induction ds as [|d ds IH]; intros n ds' H; inversion H; subst; cbn.
  - reflexivity.
  - match goal with
    | M : item_mirrors _ _ |- _ => destruct M as (_ & En & _ & _ & Eq & Ep & _)
    end.
    cbn in En, Eq, Ep. injection Eq as Eq. injection Ep as Ep.
    rewrite En, <- Eq, <- Ep. f_equal. eapply IH. eassumption.
Qed.

Lemma reseeded_amount x y :
  x <> NaN -> surcharge_mirrors (JNum (or_zero (JNum x))) y -> same_amount x y.
Proof.
  intros N [[E _]|[E _]]; [discriminate|]. injection E as <-.
  unfold same_amount. destruct x as [[]|s| |s m e]; cbn; auto. now destruct N.
Qed.

Lemma surcharge_not_nan v x : surcharge v = Valid x -> x <> NaN.
Proof. intros H. apply surcharge_inv in H as [[_ ->]|[_ N]]; [discriminate|exact N]. Qed.

Lemma status_key_inj a b : status_key a = status_key b -> a = b.
Proof. destruct a, b; cbn; intros H; try reflexivity; discriminate. Qed.

(** The pieces of a valid form, one parse per field. *)
Lemma orderSchema_parts f d :
  orderSchema f = Valid d ->
  surcharge (f_fabric_price f) = Valid (fabric_price d) /\
  surcharge (f_tailoring_price f) = Valid (tailoring_price d) /\
  surcharge (f_extra_costs f) = Valid (extra_costs d) /\
  surcharge (f_tax_amount f) = Valid (tax_amount d) /\
  Forall2 (fun x d => itemSchema x = Valid d) (f_order_items f) (order_items_ d).
Proof.
  unfold orderSchema. intros H.
  apply pmap_inv in H as ((n & ph & st & fp & tp & ec & tx & nt & its) & H & <-).
  repeat (apply both_inv in H as [?H H]; cbn [fst snd] in * ).
  unfold field in *.
  repeat match goal with
         | H : under _ _ = Valid _ |- _ => apply under_inv in H
         end.
  cbn. repeat (split; [assumption|]). unfold array in H. now apply array_from_inv in H.
Qed.

(** X12. Save and reload: when an order that exists once is saved with no
    request failing, and the edit page is opened again, the form that is
    loaded passes validation again and yields the same customer name,
    phone and status, the same surcharges (a negative zero coming back as
    zero), and the same multiset of (product name, quantity, unit price)
    over its line items; nothing is said of the order in which the item
    rows come back, the query asking for none. *)
Theorem save_then_load :
  forall (id : string) (s : state) (data : OrderFormData) (r0 : order_row),
    orderSchema (st_form s) = Valid data ->
    (forall c, w_fails (st_world s) c = false) ->
    select_order id (w_tables (st_world s)) = Some r0 ->
    let t' := w_tables (st_world (snd (handleSubmit (onSubmit id) s))) in
    let f' := st_form (snd (fetchOrder id (mounted t' (w_fails (st_world s))))) in
    exists data',
      orderSchema f' = Valid data' /\
      customer_name data' = customer_name data /\
      customer_phone data' = customer_phone data /\
      status_ data' = status_ data /\
      same_amount (fabric_price data) (fabric_price data') /\
      same_amount (tailoring_price data) (tailoring_price data') /\
      same_amount (extra_costs data) (extra_costs data') /\
      same_amount (tax_amount data) (tax_amount data') /\
      Permutation
        (map (fun d => (product_name d, quantity d, unit_price d)) (order_items_ data'))
        (map (fun d => (product_name d, quantity d, unit_price d)) (order_items_ data)).
Proof.
  intros id s data r0 E H S. cbv zeta.
  rewrite (handleSubmit_saved id s data E H).
  rewrite (fetchOrder_loaded id _ _ (patch_order (header_patch s data) r0));
    [|apply H|apply H|now apply select_order_saved].
  cbn [st_form]. rewrite saved_items.
  destruct (orderSchema_parts _ _ E) as (S1 & S2 & S3 & S4 & Si).
  destruct (orderSchema_mirrors _ _ E) as (En & Ep & Es & _).
  assert (V : valid (orderSchema (st_form s))) by now exists data.
  apply orderSchema_valid in V as [(Nn & Np & _) _].
  set (rows := store_from _ _).
  assert (V' : valid (orderSchema (form_of_rows (patch_order (header_patch s data) r0) rows))).
  { apply form_of_rows_valid. cbn [patch_order o_customer_name o_customer_phone o_status
      o_fabric_price o_tailoring_price o_extra_costs o_tax_amount header_patch
      u_customer_name u_customer_phone u_status u_fabric_price u_tailoring_price
      u_extra_costs u_tax_amount].
    rewrite En, Ep. repeat split; eauto using surcharge_storable.
    eapply stored_editable; eassumption. }
  destruct V' as [data' E']. exists data'. split; [exact E'|].
  destruct (orderSchema_mirrors _ _ E')
    as (En' & Ep' & Es' & M1 & M2 & M3 & M4 & _ & Mi).
  cbn [form_of_rows f_customer_name f_customer_phone f_status f_fabric_price
         f_tailoring_price f_extra_costs f_tax_amount f_order_items patch_order
         o_customer_name o_customer_phone o_status o_fabric_price o_tailoring_price
         o_extra_costs o_tax_amount header_patch u_customer_name u_customer_phone
         u_status u_fabric_price u_tailoring_price u_extra_costs u_tax_amount
         of_nullable Number] in *.
  split; [exact En'|]. split; [exact Ep'|].
  split; [injection Es' as Es'; symmetry; now apply status_key_inj|].
  split; [eapply reseeded_amount; [eapply surcharge_not_nan|]; eassumption|].
  split; [eapply reseeded_amount; [eapply surcharge_not_nan|]; eassumption|].
  split; [eapply reseeded_amount; [eapply surcharge_not_nan|]; eassumption|].
  split; [eapply reseeded_amount; [eapply surcharge_not_nan|]; eassumption|].
  erewrite reloaded_items by exact Mi. reflexivity.
Qed.

Lemma save_then_load_witness :
  let second := {| i_id := "a2"; i_order_id := Some "o1"; i_product_name := "bisht";
                   i_model := Some "M1"; i_size := None; i_quantity := Some (of_int 1);
                   i_meters := Some (dec 35 10); i_unit_price := of_int 35;
                   i_total_price := of_int 35 |} in
  let other := {| i_id := "b1"; i_order_id := Some "o2"; i_product_name := "shemagh";
                  i_model := None; i_size := None; i_quantity := Some (of_int 4);
                  i_meters := None; i_unit_price := of_int 5;
                  i_total_price := of_int 20 |} in
  let t := {| orders := [Example.order]; order_items := [Example.item; other; second];
              customers := []; id_seq := 7 |} in
  let s := snd (fetchOrder "o1" (mounted t Example.no_faults)) in
  let t' := w_tables (st_world (snd (handleSubmit (onSubmit "o1") s))) in
  let f' := st_form (snd (fetchOrder "o1" (mounted t' Example.no_faults))) in
  map i_id (order_items t') = ["b1"; "item-7"; "item-8"] /\
  exists data',
    orderSchema f' = Valid data' /\
    customer_name data' = "Ali" /\
    status_ data' = pending /\
    Permutation
      (map (fun d => (product_name d, quantity d, unit_price d)) (order_items_ data'))
      [("thobe", of_int 2, of_int 10); ("bisht", of_int 1, of_int 35)].
Proof.
  cbv zeta. split; [vm_compute; reflexivity|].
  match goal with
  | |- context [handleSubmit (onSubmit "o1") ?s] =>
      destruct (save_then_load "o1" s _ Example.order eq_refl (fun _ => eq_refl) eq_refl)
        as (data' & E' & En & _ & Es & _ & _ & _ & _ & Ei)
  end.
  exists data'. split; [exact E'|]. split; [exact En|]. split; [exact Es|exact Ei].
Defined.

End Reloading.

(** * The order details page *)

Section DetailsPage.

Import EditOrder.
Import Notions.


(** X13. Opening the details page never writes, never shows a toast and
    never lets an exception escape, and always leaves the loading screen.
    It shows the order with exactly the item rows the order owns when both
    requests succeed; when a request fails, or the identifier matches no
    single order, it shows the same "order not found" screen, the only
    trace of the failure being one logged error. *)
Theorem details_outcome :
  forall (id : string) (t : tables) (fails : call -> bool),
    let s := snd (OrderDetails.fetchOrderDetails id (OrderDetails.mounted t fails)) in
    let w := OrderDetails.st_world s in
    fst (OrderDetails.fetchOrderDetails id (OrderDetails.mounted t fails)) = Return tt /\
    OrderDetails.loading s = false /\
    w_tables w = t /\
    w_toasts w = [] /\
    match (if fails (SelectOrder id) then None else select_order id t) with
    | None =>
        OrderDetails.view s = OrderDetails.NotFound /\
        w_calls w = [SelectOrder id] /\
        w_console w = [GatewayError (SelectOrder id)]
    | Some o =>
        w_calls w = [SelectOrder id; SelectItems id] /\
        if fails (SelectItems id) then
          OrderDetails.view s = OrderDetails.NotFound /\
          w_console w = [GatewayError (SelectItems id)]
        else
          OrderDetails.view s
          = OrderDetails.Details
              {| OrderDetails.d_order := Some o;
                 OrderDetails.d_order_items := select_items id t |} /\
          w_console w = []
    end.
Proof.
  intros id t fails. cbv zeta.
  unfold OrderDetails.fetchOrderDetails, finally, catch, bind, OrderDetails.request,
    request_on, OrderDetails.mounted, OrderDetails.view.
  cbn.
  destruct (fails (SelectOrder id)) eqn:H1; cbn; [now repeat split|].
  destruct (select_order id t) as [o|] eqn:H3; cbn; [|now repeat split].
  destruct (fails (SelectItems id)) eqn:H2; cbn; now repeat split.
Qed.




End DetailsPage.

(** * The dashboard: what the statistics depend on *)

Section StatisticsInvariants.

Import Dashboard.
Import Notions.

Lemma count_status_perm k rows rows' :
  Permutation rows rows' -> Spec.count_status k rows = Spec.count_status k rows'.
Proof.
  induction 1 as [|r a b _ IH|r r' a|a b c _ IH1 _ IH2]; cbn.
  - reflexivity.
  - now rewrite IH.
  - now destruct (bool_decide (status r = Some k)), (bool_decide (status r' = Some k)).
  - congruence.
Qed.

Lemma whole_perm rows rows' amounts :
  Permutation rows rows' -> Forall2 whole_total rows amounts ->
  exists amounts', Permutation amounts amounts' /\ Forall2 whole_total rows' amounts'.
Proof.
  intros P. revert amounts.
  induction P as [|r a b _ IH|r r' a|a b c _ IH1 _ IH2]; intros amounts H.
  - inversion H; subst. exists []. split; constructor.
  - inversion H as [|? z ? zs Hz Hr]; subst.
    destruct (IH zs Hr) as (zs' & P' & H').
    exists (z :: zs'). split; [now constructor|now constructor].
  - inversion H as [|? z ? zs Hz Hr]; subst.
    inversion Hr as [|? z' ? zs' Hz' Hr']; subst.
    exists (z' :: z :: zs'). split; [apply perm_swap|constructor; [assumption|constructor; assumption]].
  - destruct (IH1 amounts H) as (m & P1 & H1).
    destruct (IH2 m H1) as (m' & P2 & H2).
    exists m'. split; [now transitivity m|assumption].
Qed.

Lemma sum_of_perm a b : Permutation a b -> sum_of a = sum_of b.
Proof.
  unfold sum_of.
  induction 1 as [|x a b _ IH|x y a|a b c _ IH1 _ IH2]; cbn [fold_right]; lia.
Qed.

Lemma sum_of_nonneg rows amounts :
  Forall2 whole_total rows amounts -> 0 <= sum_of amounts.
Proof.
  unfold sum_of. induction 1 as [|r z rows zs [Hz _] _ IH]; cbn [fold_right]; lia.
Qed.

Lemma revenue_from rows amounts a :
  Forall2 whole_total rows amounts -> 0 <= a -> a + sum_of amounts < 2 ^ 53 ->
  fold_left (fun sum order => add sum (Number (JNum (total_price order)))) rows (of_int a)
  = of_int (a + sum_of amounts).
Proof.
  intros H. revert a.
  induction H as [|r z rows zs [Hz Hr] Hrest IH]; intros a Ha B.
  - cbn. now rewrite Z.add_0_r.
  - pose proof (sum_of_nonneg _ _ Hrest) as N.
    change (sum_of (z :: zs)) with (z + sum_of zs) in *.
    cbn [fold_left Number]. rewrite Hr, add_int by lia.
    rewrite IH by lia. f_equal. lia.
Qed.

(** X15. The two counters of the dashboard add up to the number of orders
    exactly when every fetched order is pending or completed: each
    cancelled order, and each order without a status, is counted in the
    total and in neither counter. *)
Theorem counters_add_up_iff :
  forall (rows : list totals_row) (customers : option (list string)),
    let s := computed rows customers in
    (pendingOrders s + completedOrders s = totalOrders s)%nat <->
    Forall (fun r => status r = Some "pending" \/ status r = Some "completed") rows.
Proof.
  intros rows customers. cbv zeta.
  cbn [computed totalOrders pendingOrders completedOrders].
  rewrite !count_status_filter.
  induction rows as [|r rows IH]; cbn [Spec.count_status length].
  - split; [constructor|reflexivity].
  - pose proof (count_status_disjoint rows) as D.
    rewrite List.Forall_cons_iff, <- IH.
    destruct (status r) as [k|].
    + destruct (decide (k = "pending")) as [->|Hp].
      * rewrite bool_decide_eq_true_2, bool_decide_eq_false_2 by congruence.
        split; [intros E; split; [now left|lia]|intros [_ E]; lia].
      * rewrite (bool_decide_eq_false_2 (Some k = Some "pending")) by congruence.
        destruct (decide (k = "completed")) as [->|Hc].
        -- rewrite bool_decide_eq_true_2 by reflexivity.
           split; [intros E; split; [now right|lia]|intros [_ E]; lia].
        -- rewrite bool_decide_eq_false_2 by congruence.
           split; [lia|intros [[E|E] _]; congruence].
    + rewrite !bool_decide_eq_false_2 by congruence.
      split; [lia|intros [[E|E] _]; discriminate].
Qed.

(** X16. When every fetched [total_price] is a non-negative integer and
    their exact sum is below 2^53, the revenue shown is that exact sum,
    and the whole statistics object does not depend on the order in which
    the rows come back (the query asks for no ordering). *)
Theorem statistics_order_independent :
  forall (rows rows' : list totals_row) (customers : option (list string))
         (amounts : list Z),
    Permutation rows rows' ->
    Forall2 whole_total rows amounts ->
    sum_of amounts < 2 ^ 53 ->
    totalRevenue (computed rows customers) = of_int (sum_of amounts) /\
    computed rows' customers = computed rows customers.
Proof.
  intros rows rows' customers amounts P H B.
  assert (R : forall l zs, Forall2 whole_total l zs -> sum_of zs < 2 ^ 53 ->
              totalRevenue (computed l customers) = of_int (sum_of zs)).
  { intros l zs Hl Bl. cbn [computed totalRevenue]. rewrite <- of_int_zero.
    now rewrite (revenue_from l zs 0 Hl) by lia. }
  split; [now apply R|].
  destruct (whole_perm rows rows' amounts P H) as (amounts' & Pa & H').
  pose proof (R rows amounts H B) as E1.
  pose proof (R rows' amounts' H') as E2.
  rewrite <- (sum_of_perm _ _ Pa) in E2. specialize (E2 B).
  cbn [computed totalRevenue] in E1, E2. unfold computed.
  rewrite E1, E2, !count_status_filter.
  rewrite <- (count_status_perm "pending" _ _ P), <- (count_status_perm "completed" _ _ P).
  now rewrite (Permutation_length P).
Qed.

Lemma statistics_order_independent_witness :
  let paid := {| total_price := of_int 120; status := Some "completed" |} in
  let open := {| total_price := of_int 35; status := Some "pending" |} in
  totalRevenue (computed [paid; open] None) = of_int 155 /\
  computed [open; paid] None = computed [paid; open] None.
Proof.
  cbv zeta.
  apply (statistics_order_independent _ _ None [120; 35]).
  - apply perm_swap.
  - repeat constructor; lia.
  - reflexivity.
Defined.

(** X17. Loading the dashboard issues exactly the two reads, orders then
    customers, whatever the gateway answers; it writes nothing, shows no
    toast, logs nothing and lets no exception escape, since neither
    response's error is inspected.  The customer count shown is the number
    of customers only when both reads succeed, and 0 otherwise. *)
Theorem fetchStats_quiet :
  forall (t : tables) (fails : call -> bool),
    let r := fetchStats (mounted t fails) in
    let w := st_world (snd r) in
    fst r = Return tt /\
    w_calls w = [SelectOrderTotals; SelectCustomerIds] /\
    w_tables w = t /\
    w_toasts w = [] /\
    w_console w = [] /\
    w_route w = None /\
    totalCustomers (stats (snd r))
    = if fails SelectOrderTotals || fails SelectCustomerIds then 0%nat
      else length (customers t).
Proof.
  intros t fails. cbv zeta.
  unfold fetchStats, catch, bind, request, request_on, mounted. cbn.
  destruct (fails SelectOrderTotals) eqn:E1; cbn; rewrite ?E1;
    destruct (fails SelectCustomerIds) eqn:E2; cbn; rewrite ?E1, ?E2; cbn;
    now repeat split.
Qed.

End StatisticsInvariants.

(** * The status badge: which statuses are affected *)

Section StatusBadgeExtent.

Import Orders.

Lemma inherited_key_badge (status : string) :
  status ∈ object_prototype ->
  getStatusBadge status
  = {| variant := PInherited status; children := PInherited status |}.
Proof.
  intros H.
  assert (K : status <> "pending" /\ status <> "completed" /\ status <> "cancelled").
  { repeat split; intros ->;
      match type of H with
      | ?P => exact (proj1 (bool_decide_eq_false P) eq_refl H)
      end. }
  destruct K as (H1 & H2 & H3).
  unfold getStatusBadge, get.
  rewrite (own_key_absent variants _ _ _ status eq_refl H1 H2 H3).
  rewrite (own_key_absent labels _ _ _ status eq_refl H1 H2 H3).
  rewrite bool_decide_eq_true_2 by assumption. reflexivity.
Qed.

(** X18. The badge of a status is made of text (a string variant and a
    string label) exactly when the status does not name a property of
    [Object.prototype]; in that case the variant is the neutral one
    exactly when the status is none of the three defined keys, and then
    the label is the status itself. *)
Theorem badge_is_text_iff :
  forall status : string,
    (exists v l : string,
        getStatusBadge status = {| variant := PStr v; children := PStr l |} /\
        (v = "secondary" <->
         status <> "pending" /\ status <> "completed" /\ status <> "cancelled") /\
        (v = "secondary" -> l = status))
    <-> status ∉ object_prototype.
Proof.
  intros status. split.
  - intros (v & l & E & _) H.
    rewrite (inherited_key_badge status H) in E. discriminate.
  - intros H.
    destruct (decide (status = "pending")) as [->|H1];
      [|destruct (decide (status = "completed")) as [->|H2];
        [|destruct (decide (status = "cancelled")) as [->|H3]]].
    + exists "outline", "قيد التنفيذ". split; [reflexivity|].
      split; [split; [discriminate|intros (N & _); now destruct N]|discriminate].
    + exists "default", "مكتمل". split; [reflexivity|].
      split; [split; [discriminate|intros (_ & N & _); now destruct N]|discriminate].
    + exists "destructive", "ملغي". split; [reflexivity|].
      split; [split; [discriminate|intros (_ & _ & N); now destruct N]|discriminate].
    + exists "secondary", status.
      split; [now apply getStatusBadge_fallback|].
      split; [split; [now intros _|reflexivity]|reflexivity].
Qed.

End StatusBadgeExtent.
